(** * Alva host process: the message router of [src/electron/main.ts]

    A shallow embedding of the handler registered with [sender.receive],
    of the preview relay registered on ['client-message'], and of the
    collaborators they call, followed by the properties of the
    process-coordination layer. *)

From stdpp Require Import gmap strings list fin_maps pretty.
From Stdlib Require Import ZArith.

Set Warnings "-register-all,-clear-no-such-hyp".
Set Default Proof Using "Type".

(** ** JavaScript values

    What [userStore.get], [JSON.parse] and the message payloads hold.
    Objects are finite maps from property names to values, so two objects
    with the same properties are the same value whatever the order the
    properties were written in. *)

Inductive value :=
  | VUndef
  | VNull
  | VBool (b : bool)
  | VNum (z : Z)
  | VStr (s : string)
  | VArr (l : list value)
  | VObj (o : gmap string value).

Global Instance value_eq_dec : EqDecision value.
Proof.
  refine (fix go (a b : value) {struct a} : Decision (a = b) :=
    let _ : EqDecision value := @go in
    match a, b with
    | VUndef, VUndef => left _
    | VNull, VNull => left _
    | VBool x, VBool y => cast_if (decide (x = y))
    | VNum x, VNum y => cast_if (decide (x = y))
    | VStr x, VStr y => cast_if (decide (x = y))
    | VArr x, VArr y => cast_if (decide (x = y))
    | VObj x, VObj y => cast_if (decide (x = y))
    | _, _ => right _
    end); congruence.
Defined.

(** [typeof v] *)
Definition typeof (v : value) : string :=
  match v with
  | VUndef => "undefined"
  | VNull => "object"
  | VBool _ => "boolean"
  | VNum _ => "number"
  | VStr _ => "string"
  | VArr _ => "object"
  | VObj _ => "object"
  end.

(** Truthiness, as tested by [if (v)], [!v] and [v || d]. *)
Definition truthy (v : value) : bool :=
  match v with
  | VUndef | VNull => false
  | VBool b => b
  | VNum z => negb (Z.eqb z 0)
  | VStr s => negb (String.eqb s "")
  | VArr _ | VObj _ => true
  end.

(** [a || b] *)
Definition or_else (a b : value) : value := if truthy a then a else b.

(** [a === b]: primitives by value; two objects or arrays are never the
    same reference when one comes from the store and the other from a
    message. *)
Definition strict_eq (a b : value) : bool :=
  match a, b with
  | VUndef, VUndef => true
  | VNull, VNull => true
  | VBool x, VBool y => bool_decide (x = y)
  | VNum x, VNum y => bool_decide (x = y)
  | VStr x, VStr y => bool_decide (x = y)
  | _, _ => false
  end.

(** [v.k] for a property name [k] other than an array index: [None] is
    the TypeError raised on [undefined] and [null]. *)
Definition get_prop (v : value) (k : string) : option value :=
  match v with
  | VUndef | VNull => None
  | VObj o => Some (default VUndef (o !! k))
  | VArr l => Some (if bool_decide (k = "length") then VNum (Z.of_nat (length l)) else VUndef)
  | VStr s => Some (if bool_decide (k = "length") then VNum (Z.of_nat (String.length s)) else VUndef)
  | VBool _ | VNum _ => Some VUndef
  end.

(** [Array.isArray(v)] *)
Definition isArray (v : value) : bool :=
  match v with VArr _ => true | _ => false end.

(** An object literal [{ k1: v1, ... }]. *)
Definition object (fields : list (string * value)) : value :=
  VObj (list_to_map fields).

(** [string | undefined] as a value. *)
Definition of_option_string (p : option string) : value :=
  match p with Some s => VStr s | None => VUndef end.

(** lodash [isEqual]: deep structural equality. *)
Definition isEqual (a b : value) : bool := bool_decide (a = b).

(** lodash [uniqWith(array, comparator)] ([baseUniq] with a comparator):
    walk the array, keep a value unless the comparator relates it to one
    already kept. *)
Fixpoint arrayIncludesWith {A} (comparator : A → A → bool) (value0 : A) (array : list A) : bool :=
  match array with
  | [] => false
  | seen :: rest => if comparator value0 seen then true else arrayIncludesWith comparator value0 rest
  end.

Fixpoint baseUniq {A} (comparator : A → A → bool) (array result : list A) : list A :=
  match array with
  | [] => result
  | value0 :: rest =>
      if arrayIncludesWith comparator value0 result
      then baseUniq comparator rest result
      else baseUniq comparator rest (result ++ [value0])
  end.

Definition uniqWith {A} (array : list A) (comparator : A → A → bool) : list A :=
  baseUniq comparator array [].

(** [array.filter(f)] for a callback that may throw: the first exception
    aborts the whole call. *)
Fixpoint filter_throwing {A} (f : A → option bool) (array : list A) : option (list A) :=
  match array with
  | [] => Some []
  | x :: rest =>
      match f x with
      | None => None
      | Some keep =>
          match filter_throwing f rest with
          | None => None
          | Some kept => Some (if keep then x :: kept else kept)
          end
      end
  end.

(** ** Messages *)

(** The tags of [ServerMessageType] that [main.ts] names; every other tag
    of the enumeration is an [OtherMessage]. *)
Inductive ServerMessageType :=
  | AppLoaded
  | AssetReadRequest
  | AssetReadResponse
  | CheckForUpdatesRequest
  | CheckLibraryRequest
  | CheckLibraryResponse
  | ConnectPatternLibraryRequest
  | ConnectPatternLibraryResponse
  | ConnectedPatternLibraryNotification
  | ContentResponse
  | ContextElementMenuRequest
  | CreateNewFileRequest
  | CreateNewFileResponse
  | CreateScriptBundleRequest
  | CreateScriptBundleResponse
  | ExportHTML
  | ExportPDF
  | ExportPNG
  | ExportSketch
  | HighlightElement
  | OpenFileRequest
  | OpenFileResponse
  | Save
  | SelectElement
  | SketchExportResponse
  | StartApp
  | UnselectElement
  | UpdateMenu
  | UpdatePatternLibraryRequest
  | OtherMessage (tag : string).

Global Instance ServerMessageType_eq_dec : EqDecision ServerMessageType.
Proof. solve_decision. Defined.

(** The tags of [PreviewMessageType] that the relay switches on. *)
Inductive PreviewMessageType :=
  | PreviewContentResponse
  | PreviewSketchExportResponse
  | PreviewSelectElement
  | PreviewUnselectElement
  | PreviewHighlightElement.

Global Instance PreviewMessageType_eq_dec : EqDecision PreviewMessageType.
Proof. solve_decision. Defined.

(** [ServerMessage]: the envelope. *)
Record ServerMessage := {
  id : value;
  type : ServerMessageType;
  payload : value
}.

Global Instance ServerMessage_eq_dec : EqDecision ServerMessage.
Proof. solve_decision. Defined.

(** ** Persistence results *)

(** The result of [Persistence.read]: everything whose [state] is not
    [PersistenceState.Error] carries [contents], a serialized project. *)
Inductive PersistenceResult :=
  | Success (contents : gmap string value)
  | Error (cause : value).

(** ** Pattern library and analyzer *)

(** The four identifier namespaces of a pattern library. *)
Inductive Namespace := PatternIds | PropertyIds | SlotIds | EnumOptionIds.

Global Instance Namespace_eq_dec : EqDecision Namespace.
Proof. solve_decision. Defined.

(** Modelled from the spec: the [PatternLibrary] class of [../model] is
    not among the sources. A library has an identity and four namespaces,
    each mapping a context id to the global id allocated for it. *)
Record PatternLibrary := {
  library_id : string;
  patternIds : gmap string string;
  propertyIds : gmap string string;
  slotIds : gmap string string;
  enumOptionIds : gmap string string
}.

Definition namespace_of (ns : Namespace) (library : PatternLibrary) : gmap string string :=
  match ns with
  | PatternIds => patternIds library
  | PropertyIds => propertyIds library
  | SlotIds => slotIds library
  | EnumOptionIds => enumOptionIds library
  end.

Definition record_id (ns : Namespace) (contextId globalId : string)
    (library : PatternLibrary) : PatternLibrary :=
  match ns with
  | PatternIds =>
      {| library_id := library_id library;
         patternIds := <[contextId := globalId]> (patternIds library);
         propertyIds := propertyIds library;
         slotIds := slotIds library;
         enumOptionIds := enumOptionIds library |}
  | PropertyIds =>
      {| library_id := library_id library;
         patternIds := patternIds library;
         propertyIds := <[contextId := globalId]> (propertyIds library);
         slotIds := slotIds library;
         enumOptionIds := enumOptionIds library |}
  | SlotIds =>
      {| library_id := library_id library;
         patternIds := patternIds library;
         propertyIds := propertyIds library;
         slotIds := <[contextId := globalId]> (slotIds library);
         enumOptionIds := enumOptionIds library |}
  | EnumOptionIds =>
      {| library_id := library_id library;
         patternIds := patternIds library;
         propertyIds := propertyIds library;
         slotIds := slotIds library;
         enumOptionIds := <[contextId := globalId]> (enumOptionIds library) |}
  end.

(** Modelled from the spec: [ensureGlobalId(namespace, contextId)], the
    one operation behind the four [assign...Id] methods, which are not
    among the sources. Allocate once, read thereafter: a context id the
    namespace knows keeps its global id, an unknown one gets the global
    id drawn by [newGlobalId] and is recorded. *)
Definition ensureGlobalId (newGlobalId : PatternLibrary → string) (ns : Namespace)
    (contextId : string) (library : PatternLibrary) : string * PatternLibrary :=
  match namespace_of ns library !! contextId with
  | Some globalId => (globalId, library)
  | None =>
      let globalId := newGlobalId library in
      (globalId, record_id ns contextId globalId library)
  end.

(** The calls the analyzer makes on the callback object handed to
    [Analyzer.analyze], named as its properties are in [main.ts]. *)
Inductive IdRequest :=
  | getGobalEnumOptionId (patternId contextId : string)
  | getGlobalPatternId (contextId : string)
  | getGlobalPropertyId (patternId contextId : string)
  | getGlobalSlotId (patternId contextId : string).



(** A run of the external scanner over one folder: it asks for global
    ids, each answer deciding how it goes on, and ends with the analysis. *)
Inductive Scanner :=
  | Analysis (analysis : value)
  | Ask (request : IdRequest) (continue : string → Scanner).

(** ** Collaborators *)

(** The classes of [../model] that the router calls; their code is not
    among the sources. *)
Class Model := {
  Project : Type;
  (** [Project.create({ name, path })] *)
  Project_create : string → string → Project;
  (** [Project.from(serialized)] *)
  Project_from : value → Project;
  (** [project.toJSON()] *)
  Project_toJSON : Project → value;
  (** [project.setPath(path)] *)
  Project_setPath : value → Project → Project;
  (** [project.getPath()] *)
  Project_getPath : Project → string;
  (** [project.getPatternLibrary()] *)
  Project_getPatternLibrary : Project → PatternLibrary;
  (** Modelled from the spec: the allocator of a library, whose code is
      not among the sources: the global id a library draws for a context
      id it does not know.  The spec has the namespaces collision-free,
      so the id drawn is one that no namespace of the library holds. *)
  newGlobalId : PatternLibrary → string;
  newGlobalId_unused :
    ∀ library ns contextId,
      namespace_of ns library !! contextId ≠ Some (newGlobalId library)
}.

(** What the environment answers during one run of a handler. *)
Record World := {
  (** [electron-is-dev] *)
  electronIsDev : bool;
  (** [process.env.NODE_ENV === 'development'] *)
  NODE_ENV_development : bool;
  (** the port the server listens on *)
  port : N;
  (** the identifier [uuid.v4()] draws *)
  uuid_v4 : string;
  (** the path the save dialog resolves to, [undefined] when cancelled *)
  showSaveDialog : option string;
  (** the paths the open dialog resolves to, [undefined] when cancelled *)
  showOpenDialog : option (list string);
  (** [Persistence.read] *)
  Persistence_read : string → PersistenceResult;
  (** [Fs.readFile]; [None] when the promise is rejected *)
  readFile : string → option (list Byte.byte);
  (** [buffer.toString('base64')] *)
  toString_base64 : list Byte.byte → string;
  (** [MimeTypes.lookup]; [None] is its [false] *)
  MimeTypes_lookup : string → option string;
  (** the error argument of the callback of [compiler.run] is set *)
  compiler_run_err : bool;
  (** [compiler.outputFileSystem.readFileSync]; [None] when it throws *)
  outputFileSystem_readFileSync : string → option value;
  (** the scanner behind [Analyzer.analyze] for a folder *)
  Analyzer_scan : string → Scanner;
  (** whether a path exists on the filesystem *)
  path_exists : string → bool;
  (** what [Fs.exists] makes of an argument that is not a string: the
      boolean it calls back with, or [None] when it throws *)
  Fs_exists_invalid : value → option bool;
  (** the time the check [Fs.exists] runs for the [n]-th call of a
      handler takes to call back *)
  Fs_exists_time : nat → nat
}.

(** [Fs.exists(path, callback)]: the boolean the callback receives. *)
Definition Fs_exists (w : World) (path : value) : option bool :=
  match path with
  | VStr s => Some (path_exists w s)
  | _ => Fs_exists_invalid w path
  end.

(** The variables of [main.ts] that outlive a handler. *)
Record State := {
  (** [win] is set *)
  win : bool;
  (** [projectPath] *)
  projectPath : option string;
  (** [userStore.get('connections')] *)
  connections : value
}.

Definition set_projectPath (p : option string) (s : State) : State :=
  {| win := win s; projectPath := p; connections := connections s |}.

Definition set_connections (v : value) (s : State) : State :=
  {| win := win s; projectPath := projectPath s; connections := v |}.

(** ** The router *)

Section Router.
Context `{model : Model}.

(** Modelled from the spec: [library.assignPatternId], whose code is not
    among the sources: [ensureGlobalId] on the pattern namespace. *)
Definition assignPatternId (contextId : string) :=
  ensureGlobalId newGlobalId PatternIds contextId.

(** Modelled from the spec: [library.assignPropertyId], whose code is
    not among the sources: [ensureGlobalId] on the property namespace.
    The spec keys a namespace by context id alone, so the pattern id
    takes no part in the lookup. *)
Definition assignPropertyId (patternId contextId : string) :=
  ensureGlobalId newGlobalId PropertyIds contextId.

(** Modelled from the spec: [library.assignSlotId], whose code is not
    among the sources: [ensureGlobalId] on the slot namespace, keyed by
    context id alone. *)
Definition assignSlotId (patternId contextId : string) :=
  ensureGlobalId newGlobalId SlotIds contextId.

(** Modelled from the spec: [library.assignEnumOptionId], whose code is
    not among the sources: [ensureGlobalId] on the enum-option
    namespace, keyed by context id alone. *)
Definition assignEnumOptionId (patternId contextId : string) :=
  ensureGlobalId newGlobalId EnumOptionIds contextId.

(** The callback object both pattern-library handlers pass to
    [Analyzer.analyze]. *)
Definition callbacks (request : IdRequest) : PatternLibrary → string * PatternLibrary :=
  match request with
  | getGobalEnumOptionId patternId contextId => assignEnumOptionId patternId contextId
  | getGlobalPatternId contextId => assignPatternId contextId
  | getGlobalPropertyId patternId contextId => assignPropertyId patternId contextId
  | getGlobalSlotId patternId contextId => assignSlotId patternId contextId
  end.

(** One run of the analyzer against a library: the analysis, the
    requests it made with the global ids it was given, and the library
    as the callbacks left it. *)
Record Run := {
  analysis_of : value;
  answers : list (IdRequest * string);
  library_after : PatternLibrary
}.

Fixpoint run_scanner (scan : Scanner) (library : PatternLibrary) : Run :=
  match scan with
  | Analysis analysis =>
      {| analysis_of := analysis; answers := []; library_after := library |}
  | Ask request continue =>
      let '(globalId, library') := callbacks request library in
      let rest := run_scanner (continue globalId) library' in
      {| analysis_of := analysis_of rest;
         answers := (request, globalId) :: answers rest;
         library_after := library_after rest |}
  end.

(** [Analyzer.analyze(path, callbacks)] *)
Definition Analyzer_analyze (w : World) (path : string) (library : PatternLibrary) : Run :=
  run_scanner (Analyzer_scan w path) library.

(** What a handler does to its collaborators. *)
Inductive Effect :=
  (** [send(message)], that is [server.emit('message', message)] *)
  | Send (message : ServerMessage)
  | CheckForUpdates (manual : bool)
  | Persist (path : string) (project : Project)
  | WriteFile (path content : value)
  | CreateApplicationMenu (payload0 : value)
  | CreateElementContexMenu (payload0 : value).

(** A handler run from some state: the effects in order, the state it
    leaves, and its result, [None] when an exception ended it. *)
Record Outcome (A : Type) := {
  effects : list Effect;
  final : State;
  returned : option A
}.
Arguments effects {A} _.
Arguments final {A} _.
Arguments returned {A} _.
Arguments Build_Outcome {A} _ _ _.

Definition M (A : Type) : Type := State → Outcome A.

Definition ret {A} (a : A) : M A :=
  λ s, {| effects := []; final := s; returned := Some a |}.

Definition bind {A B} (m : M A) (f : A → M B) : M B :=
  λ s,
    let o := m s in
    match returned o with
    | None => {| effects := effects o; final := final o; returned := None |}
    | Some a =>
        let o' := f a (final o) in
        {| effects := effects o ++ effects o';
           final := final o';
           returned := returned o' |}
    end.

Definition throw {A} : M A :=
  λ s, {| effects := []; final := s; returned := None |}.

Definition perform (e : Effect) : M unit :=
  λ s, {| effects := [e]; final := s; returned := Some () |}.

Definition read_state : M State :=
  λ s, {| effects := []; final := s; returned := Some s |}.

Definition write_state (f : State → State) : M unit :=
  λ s, {| effects := []; final := f s; returned := Some () |}.

(** An expression that may throw. *)
Definition attempt {A} (o : option A) : M A :=
  match o with Some a => ret a | None => throw end.

Notation "x <- m ;; k" := (bind m (λ x, k))
  (at level 100, m at next level, right associativity, only parsing).
Notation "m ;;; k" := (bind m (λ _, k))
  (at level 100, right associativity, only parsing).

Definition send (message : ServerMessage) : M unit := perform (Send message).

(** The messages sent, in order. *)
Definition sent {A} (o : Outcome A) : list ServerMessage :=
  omap (λ e, match e with Send m => Some m | _ => None end) (effects o).

(** The projects persisted, in order. *)
Definition persisted {A} (o : Outcome A) : list (string * Project) :=
  omap (λ e, match e with Persist p project => Some (p, project) | _ => None end) (effects o).

(** The test of the three filters over stored connections:
    [typeof c === 'object' && typeof c.path === 'string' && typeof c.id === 'string'] *)
Definition is_connection (c : value) : option bool :=
  if bool_decide (typeof c = "object") then
    match get_prop c "path" with
    | None => None
    | Some path =>
        if bool_decide (typeof path = "string") then
          match get_prop c "id" with
          | None => None
          | Some cid => Some (bool_decide (typeof cid = "string"))
          end
        else Some false
    end
  else Some false.

(** [v.filter(f)]: a TypeError unless [v] is an array. *)
Definition array_filter (f : value → option bool) (v : value) : option (list value) :=
  match v with
  | VArr l => filter_throwing f l
  | _ => None
  end.

(** [array.find(f)] *)
Fixpoint array_find (f : value → option bool) (array : list value) : option (option value) :=
  match array with
  | [] => Some None
  | c :: rest =>
      match f c with
      | None => None
      | Some true => Some (Some c)
      | Some false => array_find f rest
      end
  end.

(** [Array.isArray(paths) ? paths[0] : undefined] *)
Definition first_path (paths : option (list string)) : option string :=
  match paths with
  | Some (path :: _) => Some path
  | _ => None
  end.

(** [if (path)] for [path : string | undefined] *)
Definition chosen (path : option string) : bool := truthy (of_option_string path).

(** The reply of the App-loaded and Open-file branches:
    [contents.path = path] and then the response. *)
Definition OpenFileResponse_for (message : ServerMessage) (path : string)
    (contents : gmap string value) : ServerMessage :=
  let contents := <["path" := VStr path]> contents in
  {| type := OpenFileResponse;
     id := id message;
     payload := object [("path", VStr path); ("contents", VObj contents)] |}.

(** The reply of both pattern-library branches. *)
Definition ConnectPatternLibraryResponse_for (message : ServerMessage) (analysis : value)
    : ServerMessage :=
  {| type := ConnectPatternLibraryResponse;
     id := id message;
     payload := analysis |}.

(** The reply to a Check-library request for one connection. *)
Definition CheckLibraryResponse_for (message : ServerMessage) (connection : value)
    (exists_ : bool) : ServerMessage :=
  {| id := id message;
     type := CheckLibraryResponse;
     payload := VArr [object [("id", default VUndef (get_prop connection "id"));
                              ("path", default VUndef (get_prop connection "path"));
                              ("connected", VBool exists_)]] |}.

(** A callback the handler hands to an asynchronous call: it runs once
    the handler has left the [switch], so what it does comes after what
    the handler did, and an exception in it is not the handler's. *)
Definition callback (m : M unit) : M unit :=
  λ s,
    let o := m s in
    {| effects := effects o; final := final o; returned := Some () |}.

(** Puts [x] where its time says: before the first element that does not
    call back earlier. *)
Fixpoint insert_by_time {A} (time : A → nat) (x : A) (l : list A) : list A :=
  match l with
  | [] => [x]
  | y :: rest =>
      if time x <=? time y then x :: y :: rest else y :: insert_by_time time x rest
  end.

(** The calls of a list in the order they call back: by the time each
    takes, calls that take the same time in the order they were made. *)
Definition by_completion {A} (time : nat → nat) (calls : list A) : list A :=
  snd <$> foldr (insert_by_time (λ call, time call.1)) [] (imap pair calls).

(** [connections.forEach(connection => Fs.exists(connection.path, ...))]:
    the checks that were started, each with the boolean it will call
    back with, and whether every check was started; [false] when a call
    of [Fs.exists] threw and ended the loop. *)
Fixpoint start_checks (w : World) (matching : list value) : list (value * bool) * bool :=
  match matching with
  | [] => ([], true)
  | connection :: rest =>
      match get_prop connection "path" with
      | None => ([], false)
      | Some path =>
          match Fs_exists w path with
          | None => ([], false)
          | Some exists_ =>
              let '(started, all) := start_checks w rest in
              ((connection, exists_) :: started, all)
          end
      end
  end.

(** The callbacks of the checks, each a [send] of its reply. *)
Fixpoint call_back (message : ServerMessage) (calls : list (value * bool)) : M unit :=
  match calls with
  | [] => ret ()
  | (connection, exists_) :: rest =>
      callback (send (CheckLibraryResponse_for message connection exists_)) ;;;
      call_back message rest
  end.

(** [connections.forEach(connection => Fs.exists(connection.path, exists => send(...)))]:
    every check is started in the order of the list; the replies are
    sent from the callbacks, in the order the checks call back. *)
Definition check_each (w : World) (message : ServerMessage) (matching : list value) : M unit :=
  let '(started, all) := start_checks w matching in
  call_back message (by_completion (Fs_exists_time w) started) ;;;
  if all then ret () else throw.

(** One bundle of the Create-script-bundle reply. *)
Definition bundle (w : World) (name : string) : option value :=
  let path := "/" +:+ name +:+ ".js" in
  match outputFileSystem_readFileSync w path with
  | None => None
  | Some contents =>
      Some (object [("name", VStr name); ("path", VStr path); ("contents", contents)])
  end.

(** [case ServerMessageType.CheckForUpdatesRequest] *)
Definition on_CheckForUpdatesRequest : M unit :=
  s <- read_state ;;
  if win s then perform (CheckForUpdates true) else ret ().

(** [case ServerMessageType.AppLoaded] *)
Definition on_AppLoaded (w : World) (message : ServerMessage) : M unit :=
  s <- read_state ;;
  (if electronIsDev w && chosen (projectPath s) then
     match projectPath s with
     | Some path =>
         match Persistence_read w path with
         | Error _ => ret ()
         | Success contents => send (OpenFileResponse_for message path contents)
         end
     | None => ret ()
     end
   else ret ()) ;;;
  send {| id := VStr (uuid_v4 w);
          type := StartApp;
          payload := VStr (pretty (port w)) |}.

(** [case ServerMessageType.CreateNewFileRequest] *)
Definition on_CreateNewFileRequest (w : World) (message : ServerMessage) : M unit :=
  let path := showSaveDialog w in
  (if electronIsDev w then write_state (set_projectPath path) else ret ()) ;;;
  if chosen path then
    match path with
    | Some path =>
        let project := Project_create "Untitled Project" path in
        perform (Persist path project) ;;;
        send {| type := CreateNewFileResponse;
                id := id message;
                payload := object [("path", VStr path);
                                   ("contents", Project_toJSON project)] |}
    | None => ret ()
    end
  else ret ().

(** [case ServerMessageType.OpenFileRequest] *)
Definition on_OpenFileRequest (w : World) (message : ServerMessage) : M unit :=
  let paths := showOpenDialog w in
  let path := first_path paths in
  (if electronIsDev w then write_state (set_projectPath path) else ret ()) ;;;
  if chosen path then
    match path with
    | Some path =>
        match Persistence_read w path with
        | Error _ => ret ()
        | Success contents => send (OpenFileResponse_for message path contents)
        end
    | None => ret ()
    end
  else ret ().

(** [case ServerMessageType.AssetReadRequest] *)
Definition on_AssetReadRequest (w : World) (message : ServerMessage) : M unit :=
  match showOpenDialog w with
  | None => ret ()
  | Some paths =>
      let path := head paths in
      if chosen path then
        match path with
        | Some path =>
            content <- attempt (readFile w path) ;;
            let mimeType :=
              match MimeTypes_lookup w path with
              | Some found => if truthy (VStr found) then found else "application/octet-stream"
              | None => "application/octet-stream"
              end in
            send {| type := AssetReadResponse;
                    id := id message;
                    payload := VStr ("data:" +:+ mimeType +:+ ";base64,"
                                      +:+ toString_base64 w content) |}
        | None => ret ()
        end
      else ret ()
  end.

(** [case ServerMessageType.Save] *)
Definition on_Save (w : World) (message : ServerMessage) : M unit :=
  serialized <- attempt (get_prop (payload message) "project") ;;
  let project := Project_from serialized in
  path <- attempt (get_prop (payload message) "path") ;;
  let project := Project_setPath path project in
  (if NODE_ENV_development w
   then write_state (set_projectPath (Some (Project_getPath project)))
   else ret ()) ;;;
  perform (Persist (Project_getPath project) project).

(** [case ServerMessageType.CreateScriptBundleRequest]: the handler
    starts [compiler.run] and leaves the [switch]; the reply is sent from
    the callback, where a throwing [readFileSync] is raised. *)
Definition on_CreateScriptBundleRequest (w : World) (message : ServerMessage) : M unit :=
  callback
    (if compiler_run_err w then ret ()
     else
       renderer <- attempt (bundle w "renderer") ;;
       preview <- attempt (bundle w "preview") ;;
       send {| type := CreateScriptBundleResponse;
               id := id message;
               payload := VArr [renderer; preview] |}).

(** [case ServerMessageType.ExportHTML], [ExportPDF], [ExportPNG],
    [ExportSketch] *)
Definition on_Export (message : ServerMessage) : M unit :=
  path <- attempt (get_prop (payload message) "path") ;;
  content <- attempt (get_prop (payload message) "content") ;;
  perform (WriteFile path content).

(** [case ServerMessageType.ConnectPatternLibraryRequest] *)
Definition on_ConnectPatternLibraryRequest (w : World) (message : ServerMessage) : M unit :=
  let paths := showOpenDialog w in
  let path := first_path paths in
  if chosen path then
    match path with
    | Some path =>
        let project := Project_from (payload message) in
        let library := Project_getPatternLibrary project in
        let analysis := analysis_of (Analyzer_analyze w path library) in
        send (ConnectPatternLibraryResponse_for message analysis)
    | None => ret ()
    end
  else ret ().

(** The stored connection an Update-pattern-library request resolves to:
    [connections.filter(...).find(c => c.id === id)] *)
Definition find_connection (stored : value) (library_id0 : string) : option (option value) :=
  let connections := or_else stored (VArr []) in
  match array_filter is_connection connections with
  | None => None
  | Some well_formed =>
      array_find
        (λ c, match get_prop c "id" with
              | None => None
              | Some cid => Some (strict_eq cid (VStr library_id0))
              end)
        well_formed
  end.

(** [case ServerMessageType.UpdatePatternLibraryRequest] *)
Definition on_UpdatePatternLibraryRequest (w : World) (message : ServerMessage) : M unit :=
  let project := Project_from (payload message) in
  let library := Project_getPatternLibrary project in
  let id0 := library_id library in
  s <- read_state ;;
  connection <- attempt (find_connection (connections s) id0) ;;
  match connection with
  | None => ret ()
  | Some connection =>
      (* a record that passed the filter has a string [path] *)
      match get_prop connection "path" with
      | Some (VStr path) =>
          let analysis := analysis_of (Analyzer_analyze w path library) in
          send (ConnectPatternLibraryResponse_for message analysis)
      | _ => throw
      end
  end.

(** [Array.isArray(previous) ? previous : [previous]] for
    [previous = userStore.get('connections') || []] *)
Definition previous_records (stored : value) : list value :=
  let previous := or_else stored (VArr []) in
  match previous with
  | VArr l => l
  | _ => [previous]
  end.

(** The list a Connected-pattern-library notification stores. *)
Definition upsert (stored : value) (connection : value) : option (list value) :=
  match filter_throwing is_connection (previous_records stored) with
  | None => None
  | Some previousConnections =>
      Some (uniqWith (previousConnections ++ [connection]) isEqual)
  end.

(** [case ServerMessageType.ConnectedPatternLibraryNotification] *)
Definition on_ConnectedPatternLibraryNotification (message : ServerMessage) : M unit :=
  s <- read_state ;;
  connections0 <- attempt (upsert (connections s) (payload message)) ;;
  write_state (set_connections (VArr connections0)).

(** The records a Check-library request is answered for:
    [connections.filter(c => c.id === message.payload.id)] *)
Definition matching_connections (stored : value) (message : ServerMessage)
    : option (list value) :=
  let connections := or_else stored (VArr []) in
  array_filter
    (λ c, match get_prop c "id" with
          | None => None
          | Some cid =>
              match get_prop (payload message) "id" with
              | None => None
              | Some requested => Some (strict_eq cid requested)
              end
          end)
    connections.

(** [case ServerMessageType.CheckLibraryRequest] *)
Definition on_CheckLibraryRequest (w : World) (message : ServerMessage) : M unit :=
  s <- read_state ;;
  matching <- attempt (matching_connections (connections s) message) ;;
  check_each w message matching.

(** The handler registered with [sender.receive]. *)
Definition receive (w : World) (message : option ServerMessage) : M unit :=
  match message with
  | None => ret ()
  | Some message =>
      send message ;;;
      match type message with
      | CheckForUpdatesRequest => on_CheckForUpdatesRequest
      | AppLoaded => on_AppLoaded w message
      | CreateNewFileRequest => on_CreateNewFileRequest w message
      | OpenFileRequest => on_OpenFileRequest w message
      | AssetReadRequest => on_AssetReadRequest w message
      | Save => on_Save w message
      | CreateScriptBundleRequest => on_CreateScriptBundleRequest w message
      | ExportHTML | ExportPDF | ExportPNG | ExportSketch => on_Export message
      | ConnectPatternLibraryRequest => on_ConnectPatternLibraryRequest w message
      | UpdatePatternLibraryRequest => on_UpdatePatternLibraryRequest w message
      | ConnectedPatternLibraryNotification => on_ConnectedPatternLibraryNotification message
      | CheckLibraryRequest => on_CheckLibraryRequest w message
      | UpdateMenu => perform (CreateApplicationMenu (payload message))
      | ContextElementMenuRequest => perform (CreateElementContexMenu (payload message))
      | _ => ret ()
      end
  end.

(** The messages a handler sent after passing the inbound one on. *)
Definition replies (w : World) (s : State) (message : ServerMessage) : list ServerMessage :=
  tail (sent (receive w (Some message) s)).

End Router.

Arguments effects {model A} _.
Arguments final {model A} _.
Arguments returned {model A} _.
Arguments Build_Outcome {model A} _ _ _.

(** ** The preview relay *)

Section Relay.
(** [JSON.parse]; [None] when it throws. *)
Variable JSON_parse : string → option value.
(** The values of the [PreviewMessageType] enumeration, declared in
    [../message]. *)
Variable PreviewMessageType_value : PreviewMessageType → value.

(** What one ['client-message'] event leads to: the messages handed to
    [sender.send], and whether the [catch] block logged an error. *)
Record Relayed := {
  relayed : list ServerMessage;
  logged : bool
}.

(** The [switch] over [message.type]; [None] is an exception. *)
Definition relay_switch (message : value) : option (list ServerMessage) :=
  match get_prop message "type" with
  | None => None
  | Some tag =>
      let id0 := default VUndef (get_prop message "id") in
      let payload0 := default VUndef (get_prop message "payload") in
      Some
        (if strict_eq tag (PreviewMessageType_value PreviewContentResponse) then
           [{| id := id0; payload := payload0; type := ContentResponse |}]
         else if strict_eq tag (PreviewMessageType_value PreviewSketchExportResponse) then
           [{| id := id0; payload := payload0; type := SketchExportResponse |}]
         else if strict_eq tag (PreviewMessageType_value PreviewSelectElement) then
           [{| id := id0; payload := payload0; type := SelectElement |}]
         else if strict_eq tag (PreviewMessageType_value PreviewUnselectElement) then
           [{| id := id0; payload := VUndef; type := UnselectElement |}]
         else if strict_eq tag (PreviewMessageType_value PreviewHighlightElement) then
           [{| id := id0; payload := payload0; type := HighlightElement |}]
         else [])
  end.

(** The handler of ['client-message']: [try { ... } catch (err) { log }]. *)
Definition on_client_message (envelope : string) : Relayed :=
  match JSON_parse envelope with
  | None => {| relayed := []; logged := true |}
  | Some message =>
      match relay_switch message with
      | None => {| relayed := []; logged := true |}
      | Some messages => {| relayed := messages; logged := false |}
      end
  end.

End Relay.

(** ** Vocabulary of the statements *)

(** The translation of preview tags into the primary vocabulary. *)
Definition translated (t : PreviewMessageType) : ServerMessageType :=
  match t with
  | PreviewContentResponse => ContentResponse
  | PreviewSketchExportResponse => SketchExportResponse
  | PreviewSelectElement => SelectElement
  | PreviewUnselectElement => UnselectElement
  | PreviewHighlightElement => HighlightElement
  end.

(** The request tags that have a reply, with the tag of the reply. *)
Definition reply_type (t : ServerMessageType) : option ServerMessageType :=
  match t with
  | AssetReadRequest => Some AssetReadResponse
  | CheckLibraryRequest => Some CheckLibraryResponse
  | ConnectPatternLibraryRequest => Some ConnectPatternLibraryResponse
  | CreateNewFileRequest => Some CreateNewFileResponse
  | CreateScriptBundleRequest => Some CreateScriptBundleResponse
  | OpenFileRequest => Some OpenFileResponse
  | UpdatePatternLibraryRequest => Some ConnectPatternLibraryResponse
  | _ => None
  end.

(** A stored record that is a connection: it passes the test of the
    filters, so it is an object whose [path] and [id] are strings. *)
Definition Connection (c : value) : Prop := is_connection c = Some true.

Global Instance Connection_dec (c : value) : Decision (Connection c).
Proof. unfold Connection. apply _. Defined.


(** Deduplication that keeps, of structurally equal values, the one seen
    first. *)
Fixpoint first_seen (l : list value) : list value :=
  match l with
  | [] => []
  | x :: rest => x :: filter (λ y, y ≠ x) (first_seen rest)
  end.

(** The list the handlers read from the store,
    [userStore.get('connections') || []], when it is an array. *)
Definition stored_list (stored : value) : option (list value) :=
  match or_else stored (VArr []) with
  | VArr l => Some l
  | _ => None
  end.

(** The path of a connection. *)
Definition connection_path (c : value) : string :=
  match get_prop c "path" with
  | Some (VStr path) => path
  | _ => ""
  end.

(** The library a pattern-library request carries:
    [Project.from(message.payload).getPatternLibrary()] *)
Definition library_of `{model : Model} (message : ServerMessage) : PatternLibrary :=
  Project_getPatternLibrary (Project_from (payload message)).

(** The branches on which a request is deliberately left unanswered: a
    cancelled dialog, a failed read, a failed build, no connection
    stored for the library. *)
Definition silent `{model : Model} (w : World) (s : State) (message : ServerMessage) : bool :=
  match type message with
  | AssetReadRequest => negb (chosen (showOpenDialog w ≫= head))
  | ConnectPatternLibraryRequest => negb (chosen (first_path (showOpenDialog w)))
  | CreateNewFileRequest => negb (chosen (showSaveDialog w))
  | CreateScriptBundleRequest => compiler_run_err w
  | OpenFileRequest =>
      match first_path (showOpenDialog w) with
      | Some path =>
          negb (chosen (Some path))
          || match Persistence_read w path with Error _ => true | Success _ => false end
      | None => true
      end
  | UpdatePatternLibraryRequest =>
      bool_decide (find_connection (connections s) (library_id (library_of message)) = Some None)
  | _ => false
  end.

(** The runs that end in a reply, for the tags with one reply, told from
    the environment and the store alone: a path was chosen in the
    dialog and what is read there can be read; the build succeeded and
    both bundles can be read; the store is nothing or a list without
    [null], and holds a connection with the id of the library. *)
Definition answered `{model : Model} (w : World) (s : State) (message : ServerMessage) : bool :=
  match type message with
  | AssetReadRequest =>
      match showOpenDialog w ≫= head with
      | Some path => chosen (Some path) && bool_decide (is_Some (readFile w path))
      | None => false
      end
  | ConnectPatternLibraryRequest => chosen (first_path (showOpenDialog w))
  | CreateNewFileRequest => chosen (showSaveDialog w)
  | CreateScriptBundleRequest =>
      negb (compiler_run_err w)
      && bool_decide (is_Some (outputFileSystem_readFileSync w "/renderer.js"))
      && bool_decide (is_Some (outputFileSystem_readFileSync w "/preview.js"))
  | OpenFileRequest =>
      match first_path (showOpenDialog w) with
      | Some path =>
          chosen (Some path)
          && match Persistence_read w path with Success _ => true | Error _ => false end
      | None => false
      end
  | UpdatePatternLibraryRequest =>
      match stored_list (connections s) with
      | Some l =>
          bool_decide (VNull ∉ l)
          && bool_decide
               (filter (λ c, Connection c
                             ∧ get_prop c "id" = Some (VStr (library_id (library_of message))))
                  l ≠ [])
      | None => false
      end
  | _ => false
  end.

(** No namespace of the library gives one global id to two context ids. *)
Definition collision_free (library : PatternLibrary) : Prop :=
  ∀ ns c1 c2 globalId,
    namespace_of ns library !! c1 = Some globalId →
    namespace_of ns library !! c2 = Some globalId →
    c1 = c2.



(** ** A concrete setting

    A model and a world on which the statements below are exercised. *)

Module Scenario.

(** A string of [n] letters. *)
Definition letters (n : nat) : string := Nat.iter n (λ s, "g" +:+ s) "".

Definition used_ids (library : PatternLibrary) : list string :=
  (map_to_list (patternIds library)).*2 ++ (map_to_list (propertyIds library)).*2
  ++ (map_to_list (slotIds library)).*2 ++ (map_to_list (enumOptionIds library)).*2.

(** A global id longer than every id in use. *)
Definition longer_id (library : PatternLibrary) : string :=
  letters (S (max_list (String.length <$> used_ids library))).

Definition buttons : PatternLibrary :=
  {| library_id := "L";
     patternIds := {["Button.tsx" := "g"]};
     propertyIds := ∅;
     slotIds := ∅;
     enumOptionIds := ∅ |}.

(** Projects kept as their serialized form; the id drawn is longer than
    every id in use, and so is none of them. *)
Definition model : Model.
Proof.
  refine
    {| Project := value;
       Project_create name path := object [("name", VStr name); ("path", VStr path)];
       Project_from serialized := serialized;
       Project_toJSON project := project;
       Project_setPath path project :=
         match project with
         | VObj o => VObj (<["path" := path]> o)
         | _ => project
         end;
       Project_getPath project := connection_path project;
       Project_getPatternLibrary _ := buttons;
       newGlobalId := longer_id;
       newGlobalId_unused := _ |}.
  intros library ns contextId Hused.
  assert (∀ n, String.length (letters n) = n) as Hlength.
  { induction n as [|n IH]; simpl; [done|]. by f_equal. }
  assert (longer_id library ∈ used_ids library) as Hin.
  { apply elem_of_map_to_list in Hused.
    apply (list_elem_of_fmap_2 snd) in Hused. simpl in Hused.
    unfold used_ids. rewrite !elem_of_app. destruct ns; simpl in Hused; auto. }
  apply (list_elem_of_fmap_2 String.length) in Hin.
  apply max_list_elem_of_le in Hin.
  unfold longer_id in Hin at 1. rewrite Hlength in Hin. lia.
Defined.

(** A scanner that asks for the id of one pattern and of one of its
    properties, and reports both. *)
Definition scan_button : Scanner :=
  Ask (getGlobalPatternId "Button.tsx") (λ patternId,
    Ask (getGlobalPropertyId patternId "label") (λ propertyId,
      Analysis (VArr [VStr patternId; VStr propertyId]))).

Definition project_file : gmap string value := {["name" := VStr "Demo"]}.

Definition world : World :=
  {| electronIsDev := true;
     NODE_ENV_development := true;
     port := 1879%N;
     uuid_v4 := "u";
     showSaveDialog := Some "/tmp/Untitled Project.alva";
     showOpenDialog := Some ["/tmp/demo.alva"];
     Persistence_read path :=
       if bool_decide (path = "/tmp/demo.alva") then Success project_file
       else Error (VStr "ENOENT");
     readFile _ := None;
     toString_base64 _ := "";
     MimeTypes_lookup _ := None;
     compiler_run_err := false;
     outputFileSystem_readFileSync _ := Some (VStr "");
     Analyzer_scan _ := scan_button;
     path_exists path := bool_decide (path = "/lib/a");
     Fs_exists_invalid _ := Some false;
     Fs_exists_time _ := 0 |}.

(** The same world with both dialogs cancelled. *)
Definition world_cancelled : World :=
  {| electronIsDev := true;
     NODE_ENV_development := true;
     port := 1879%N;
     uuid_v4 := "u";
     showSaveDialog := None;
     showOpenDialog := None;
     Persistence_read := Persistence_read world;
     readFile := readFile world;
     toString_base64 := toString_base64 world;
     MimeTypes_lookup := MimeTypes_lookup world;
     compiler_run_err := false;
     outputFileSystem_readFileSync := outputFileSystem_readFileSync world;
     Analyzer_scan := Analyzer_scan world;
     path_exists := path_exists world;
     Fs_exists_invalid := Fs_exists_invalid world;
     Fs_exists_time := Fs_exists_time world |}.

Definition connection_a : value := object [("id", VStr "L"); ("path", VStr "/lib/a")].
Definition connection_b : value := object [("id", VStr "L"); ("path", VStr "/lib/b")].

(** A record without a [path]. *)
Definition malformed : value := object [("id", VStr "L")].

Definition state : State :=
  {| win := true;
     projectPath := Some "/tmp/previous.alva";
     connections := VArr [connection_a; connection_b] |}.

Definition request (t : ServerMessageType) (payload0 : value) : ServerMessage :=
  {| id := VStr "1"; type := t; payload := payload0 |}.

(** The preview enumeration as strings, and a parser that knows one
    envelope. *)
Definition preview_tags (t : PreviewMessageType) : value :=
  VStr match t with
       | PreviewContentResponse => "content-response"
       | PreviewSketchExportResponse => "sketch-export-response"
       | PreviewSelectElement => "select-element"
       | PreviewUnselectElement => "unselect-element"
       | PreviewHighlightElement => "highlight-element"
       end.

Definition unselect : value :=
  object [("type", VStr "unselect-element"); ("id", VStr "7"); ("payload", VStr "x")].

Definition parse (envelope : string) : option value :=
  if bool_decide (envelope = "unselect") then Some unselect else None.

End Scenario.

(** ** Tactics *)

(** Takes every answer of the environment in turn, once a run has been
    unfolded. *)
Ltac answers_in_turn :=
  repeat (simpl in *; case_match; simplify_eq); simpl in *.

(** Rewrites with the answers taken. *)
Ltac use_answers :=
  repeat match goal with
         | H : ?x = _ |- context [?x] => rewrite H
         | H : ?x = _, H' : context [?x] |- _ => rewrite H in H'
         end;
  simpl in *.


(** ** The style-guide viewer of [src/index.jsx] *)

Module Viewer.

(** *** Folders *)

(** What [fs.readdirSync] and [fs.lstatSync] find at a path: a file; a
    directory with its entries in the order [readdirSync] lists them; a
    directory that cannot be listed, for want of permission; a symbolic
    link with what it points to; or nothing, as for an entry removed
    since it was listed, or one in a directory that cannot be
    searched. *)
Inductive Entry :=
  | File
  | Directory (entries : list (string * Entry))
  | Unlisted
  | Link (target : Entry)
  | Vanished.

(** [fs.lstatSync(path).isDirectory()]: a link is not followed; [None]
    when [lstatSync] throws. *)
Definition isDirectory (e : Entry) : option bool :=
  match e with
  | Directory _ | Unlisted => Some true
  | File | Link _ => Some false
  | Vanished => None
  end.

(** [fs.readdirSync(path)]: links are followed; [None] when it throws. *)
Fixpoint readdirSync (e : Entry) : option (list (string * Entry)) :=
  match e with
  | Directory entries => Some entries
  | Link target => readdirSync target
  | File | Unlisted | Vanished => None
  end.

(** The entry [path.join(path, name)] names, if there is one. *)
Fixpoint at_name (name : string) (entries : list (string * Entry)) : option Entry :=
  match entries with
  | [] => None
  | (name', e) :: rest => if decide (name' = name) then Some e else at_name name rest
  end.

(** An item of the pattern tree: [{ value, children }]. *)
Inductive PatternFolder :=
  | Build_PatternFolder (value : string) (children : list PatternFolder).

(** [createPatternsFromFolders(parentPath)] for what is at [parentPath]:
    [fs.readdirSync(parentPath)], the entries [lstatSync] finds to be
    directories kept, each with the folders below it. [None] when a
    [readdirSync] or an [lstatSync] throws, at [parentPath] or below. *)
Fixpoint createPatternsFromFolders (parent : Entry) : option (list PatternFolder) :=
  match parent with
  | File | Unlisted | Vanished => None
  | Link target => createPatternsFromFolders target
  | Directory entries =>
      (fix folders (entries : list (string * Entry)) : option (list PatternFolder) :=
         match entries with
         | [] => Some []
         | (name, child) :: rest =>
             match isDirectory child with
             | None => None
             | Some true =>
                 match createPatternsFromFolders child with
                 | None => None
                 | Some children =>
                     match folders rest with
                     | None => None
                     | Some items => Some (Build_PatternFolder name children :: items)
                     end
                 end
             | Some false => folders rest
             end
         end) entries
  end.

(** [name.match(/\.json$/)]: the name ends in [.json]. *)
Definition matches_json (name : string) : bool :=
  (5 <=? String.length name)
  && String.eqb (String.substring (String.length name - 5) 5 name) ".json".

(** [name.replace(/\.json$/, '')] *)
Definition replace_json (name : string) : string :=
  if matches_json name then String.substring 0 (String.length name - 5) name else name.

(** [{ label: 'Page', value }] *)
Record Page := {
  page_label : string;
  page_value : string
}.

(** [{ label: 'Project', value, children }] *)
Record ProjectFolder := {
  project_label : string;
  project_value : string;
  project_children : list Page
}.

(** The pages of a project folder:
    [fs.readdirSync(folder.path).filter(child => child.match(/\.json$/)).map(...)] *)
Definition pages (folder : Entry) : option (list Page) :=
  match readdirSync folder with
  | None => None
  | Some entries =>
      Some ((λ name, {| page_label := "Page"; page_value := replace_json name |})
              <$> filter (λ name, matches_json name = true) (fst <$> entries))
  end.

(** The projects among the entries of the projects folder. *)
Fixpoint projects (entries : list (string * Entry)) : option (list ProjectFolder) :=
  match entries with
  | [] => Some []
  | (name, child) :: rest =>
      match isDirectory child with
      | None => None
      | Some true =>
          match pages child with
          | None => None
          | Some children =>
              match projects rest with
              | None => None
              | Some items =>
                  Some ({| project_label := "Project";
                           project_value := name;
                           project_children := children |} :: items)
              end
          end
      | Some false => projects rest
      end
  end.

(** [createProjectsFromFolders(modelPath)] for what is at [modelPath];
    [None] when a [readdirSync] or an [lstatSync] throws. *)
Definition createProjectsFromFolders (model : Entry) : option (list ProjectFolder) :=
  match readdirSync model with
  | None => None
  | Some entries =>
      match at_name "projects" entries with
      | None => None
      | Some projectsPath =>
          match readdirSync projectsPath with
          | None => None
          | Some listed => projects listed
          end
      end
  end.

End Viewer.

Module ViewerItems.

(** *** List items

    The values [JSON.parse] gives.  An object is the list of its
    properties in the order [Object.entries] lists them. *)

Section ListItems.
(** JavaScript numbers, and which of them are [0]. *)
Context {number : Type}.
Variable is_zero : number → bool.
(** The characters [s[0]], [s[1]], ... of a string, each as a string. *)
Variable characters : string → list string.

Inductive Json :=
  | JNull
  | JBool (b : bool)
  | JNumber (n : number)
  | JString (s : string)
  | JArray (elements : list Json)
  | JObject (entries : list (string * Json)).

(** A key handed to [createListItemFromProperty]: a property name, or
    the number [index + 1]. *)
Inductive Key :=
  | KString (s : string)
  | KNumber (n : nat).

(** What an item holds under [value]: a key, a value of the model, or
    the file name of a pattern. *)
Inductive ItemValue :=
  | OfKey (key : Key)
  | OfJson (v : Json)
  | OfString (s : string).

(** [{ label, value }] and [{ label, value, children }] *)
Inductive ListItem :=
  | Build_ListItem (label : Key) (value : ItemValue) (children : option (list ListItem)).

(** [v || d]: whether [v] is taken. *)
Definition truthy (v : Json) : bool :=
  match v with
  | JNull => false
  | JBool b => b
  | JNumber n => negb (is_zero n)
  | JString s => negb (String.eqb s "")
  | JArray _ | JObject _ => true
  end.

(** [items.push(f(index, x))] for every [x] of a list, from [index] on;
    [None] as soon as [f] throws. *)
Fixpoint forEach {A B} (f : nat → A → option B) (index : nat) (l : list A) : option (list B) :=
  match l with
  | [] => Some []
  | x :: rest =>
      match f index x with
      | None => None
      | Some item =>
          match forEach f (S index) rest with
          | None => None
          | Some items => Some (item :: items)
          end
      end
  end.

(** [object[name]] on the properties of an object: [found] on the value
    when there is one, [missing] on [undefined]. *)
Definition with_property {A} (entries : list (string * Json)) (name : string)
    (found : Json → A) (missing : A) : A :=
  (fix find (entries : list (string * Json)) : A :=
     match entries with
     | [] => missing
     | (name', v) :: rest => if decide (name' = name) then found v else find rest
     end) entries.

(** [value['_type'] === 'pattern'] *)
Definition is_pattern (entries : list (string * Json)) : bool :=
  with_property entries "_type"
    (λ t, match t with JString s => bool_decide (s = "pattern") | _ => false end)
    false.

(** The line terminators [.] does not match: LF, CR, and U+2028 and
    U+2029, which are the bytes E2 80 A8 and E2 80 A9. *)
Definition starts_with_terminator (s : string) : bool :=
  match s with
  | EmptyString => false
  | String c rest =>
      (Ascii.nat_of_ascii c =? 10) || (Ascii.nat_of_ascii c =? 13)
      || (Ascii.nat_of_ascii c =? 226)
         && match rest with
            | String c1 (String c2 _) =>
                (Ascii.nat_of_ascii c1 =? 128)
                && ((Ascii.nat_of_ascii c2 =? 168) || (Ascii.nat_of_ascii c2 =? 169))
            | _ => false
            end
  end.

(** The length of what [/^.*\// ] matches at the start of [s]: one more
    than the position of the last [/] before the first line terminator,
    [0] when there is none. *)
Fixpoint matched (s : string) : nat :=
  if starts_with_terminator s then 0
  else
    match s with
    | EmptyString => 0
    | String c rest =>
        match matched rest with
        | 0 => if Ascii.nat_of_ascii c =? 47 then 1 else 0
        | S n => S (S n)
        end
    end.

(** [patternSrc.replace(/^.*\//, '')] *)
Definition file_name (patternSrc : string) : string :=
  String.substring (matched patternSrc) (String.length patternSrc - matched patternSrc)
    patternSrc.

(** The item of a value that is not an object: [{ label: key, value }] *)
Definition leaf (key : Key) (v : Json) : ListItem :=
  Build_ListItem key (OfJson v) None.

(** The items of [Object.entries(properties)], [item] making the item of
    each entry. *)
Definition items_of_entries (item : Key → Json → option ListItem) (properties : Json)
    : option (list ListItem) :=
  match properties with
  | JObject entries => forEach (λ _ '(name, v), item (KString name) v) 0 entries
  | JArray elements => forEach (λ index v, item (KString (pretty index)) v) 0 elements
  | JString s =>
      forEach (λ index c, Some (leaf (KString (pretty index)) (JString c))) 0 (characters s)
  | JNull | JBool _ | JNumber _ => Some []
  end.

(** The body of [createListItemFromPattern] on an object, [item] being
    [createListItemFromProperty]. *)
Definition pattern_item (item : Key → Json → option ListItem) (key : Key)
    (entries : list (string * Json)) : option ListItem :=
  match with_property entries "properties"
          (λ properties, if truthy properties then items_of_entries item properties
                         else Some [])
          (Some []) with
  | None => None
  | Some fromProperties =>
      match with_property entries "children"
              (λ children,
                 match children with
                 | JArray elements =>
                     forEach (λ index v, item (KNumber (index + 1)) v) 0 elements
                 | _ => if truthy children then None else Some []
                 end)
              (Some []) with
      | None => None
      | Some fromChildren =>
          with_property entries "patternSrc"
            (λ patternSrc,
               match patternSrc with
               | JString s =>
                   Some (Build_ListItem key (OfString (file_name s))
                           (Some (fromProperties ++ fromChildren)))
               | _ => None
               end)
            None
      end
  end.

(** [createListItemFromProperty(key, value)]; [None] when it throws. *)
Fixpoint createListItemFromProperty (key : Key) (value : Json) : option ListItem :=
  match value with
  | JArray elements =>
      match forEach (λ index child,
                       createListItemFromProperty
                         (KString ("Child " +:+ pretty (index + 1))) child)
                    0 elements with
      | None => None
      | Some items => Some (Build_ListItem (KString "ABC") (OfKey key) (Some items))
      end
  | JNull | JBool _ | JNumber _ | JString _ => Some (leaf key value)
  | JObject entries =>
      if is_pattern entries then pattern_item createListItemFromProperty key entries
      else
        match forEach (λ _ '(childKey, childValue),
                         createListItemFromProperty (KString childKey) childValue)
                      0 entries with
        | None => None
        | Some items => Some (Build_ListItem (KString "ABC") (OfKey key) (Some items))
        end
  end.

(** [createListItemFromPattern(key, model)]; [None] when it throws, as
    it does on every model that is not an object, for want of a
    [patternSrc]. *)
Definition createListItemFromPattern (key : Key) (model : Json) : option ListItem :=
  match model with
  | JObject entries => pattern_item createListItemFromProperty key entries
  | JNull | JBool _ | JNumber _ | JString _ | JArray _ => None
  end.

End ListItems.
End ViewerItems.

(** ** The asset item of [src/components/property-items/asset-item/index.tsx] *)

Module AssetItem.

Section Render.
(** Event handlers. *)
Context {Handler : Type}.

(** [AssetPropertyInputType] *)
Inductive AssetPropertyInputType := File | Url.

(** [AssetItemProps]; an optional property left out is [None]. *)
Record AssetItemProps := {
  className : option string;
  description : option string;
  imageSrc : string;
  inputType : AssetPropertyInputType;
  inputValue : option string;
  label : string;
  onChooseClick : option Handler;
  onClearClick : option Handler;
  onInputBlur : option Handler;
  onInputChange : option Handler;
  placeholder : option string
}.

(** The value of an attribute. *)
Inductive Attribute :=
  | AString (s : string)
  | ABool (b : bool)
  | AHandler (h : Handler)
  | AUndefined.

Definition optional_string (s : option string) : Attribute :=
  match s with Some s => AString s | None => AUndefined end.

Definition optional_handler (h : option Handler) : Attribute :=
  match h with Some h => AHandler h | None => AUndefined end.

(** What a JSX expression evaluates to: an element, a fragment, or one
    of the values [&&] leaves when its left side is falsy. *)
Inductive Node :=
  | Element (component : string) (attributes : list (string * Attribute))
      (children : list Node)
  | Fragment (children : list Node)
  | Text (s : string)
  | JFalse
  | JUndefined.

(** [<StyledButton onClick={props.onChooseClick}>Choose ...</StyledButton>] *)
Definition ChooseButton (props : AssetItemProps) : Node :=
  Element "StyledButton" [("onClick", optional_handler (onChooseClick props))]
    [Text "Choose ..."].

(** [<StyledButton disabled={props.imageSrc.length === 0} onClick={props.onClearClick}>Clear</StyledButton>] *)
Definition ClearButton (props : AssetItemProps) : Node :=
  Element "StyledButton"
    [("disabled", ABool (String.length (imageSrc props) =? 0));
     ("onClick", optional_handler (onClearClick props))]
    [Text "Clear"].

(** [AssetItem] *)
Definition AssetItem (props : AssetItemProps) : Node :=
  Element "StyledAssetItem" [("className", optional_string (className props))]
    [Element "label" []
       [Element "PropertyLabel" [("label", AString (label props))] [];
        Element "StyledPreview" []
          [Element "StyledImageBoxContainer" []
             [Element "StyledImageBox" []
                [if String.eqb (imageSrc props) "" then Text ""
                 else Element "StyledImage" [("src", AString (imageSrc props))] []]];
           match inputType props with
           | Url =>
               Element "StyledInput"
                 [("onBlur", optional_handler (onInputBlur props));
                  ("onChange", optional_handler (onInputChange props));
                  ("type", AString "textarea");
                  ("value", optional_string (inputValue props));
                  ("placeholder", optional_string (placeholder props))]
                 []
           | File => JFalse
           end;
           match inputType props with
           | File => Fragment [ChooseButton props; ClearButton props]
           | Url => JFalse
           end]];
     match inputType props with
     | Url => Fragment [ChooseButton props]
     | File => JFalse
     end;
     match description props with
     | None => JUndefined
     | Some d =>
         if String.eqb d "" then Text ""
         else Element "PropertyDescription" [("description", AString d)] []
     end].

(** The elements of a component in a tree, in document order. *)
Fixpoint elements_of (component : string) (node : Node) : list Node :=
  match node with
  | Element c attributes children =>
      (if String.eqb c component then [node] else [])
      ++ flat_map (elements_of component) children
  | Fragment children => flat_map (elements_of component) children
  | Text _ | JFalse | JUndefined => []
  end.

End Render.
End AssetItem.

(** ** Vocabulary of the viewer's statements *)

Module ViewerVocabulary.
Import Viewer.

(** A directory below the listed entries, named by the entry names on
    the way down; every step is an entry [lstatSync] finds to be a
    directory. *)
Inductive reaches : list (string * Entry) → list string → Prop :=
  | reaches_entry entries name below :
      (name, Directory below) ∈ entries → reaches entries [name]
  | reaches_below entries name below path :
      (name, Directory below) ∈ entries → reaches below path →
      reaches entries (name :: path).

(** An item of the pattern tree, named by the [value]s on the way
    down. *)
Inductive shown : list PatternFolder → list string → Prop :=
  | shown_item items name children :
      Build_PatternFolder name children ∈ items → shown items [name]
  | shown_below items name children path :
      Build_PatternFolder name children ∈ items → shown children path →
      shown items (name :: path).

(** The entries that [lstatSync(...).isDirectory()] keeps. *)
Definition directories (entries : list (string * Entry)) : list (string * Entry) :=
  filter (λ e, isDirectory e.2 = Some true) entries.

(** An entry that stops the walk: [lstatSync] throws on it, or it is a
    directory that [readdirSync] throws on. *)
Definition stops (e : Entry) : Prop := e = Vanished ∨ e = Unlisted.

(** Below the listed entries, through entries that are directories
    themselves, there is an entry that stops the walk. *)
Inductive blocked : list (string * Entry) → Prop :=
  | blocked_entry entries name e :
      (name, e) ∈ entries → stops e → blocked entries
  | blocked_below entries name below :
      (name, Directory below) ∈ entries → blocked below → blocked entries.

(** How an item of the pattern tree relates to the entry it comes
    from. *)
Definition item_of (e : string * Entry) (item : PatternFolder) : Prop :=
  ∃ below children,
    e.2 = Directory below
    ∧ createPatternsFromFolders (Directory below) = Some children
    ∧ item = Build_PatternFolder e.1 children.

(** How a project relates to the entry it comes from. *)
Definition project_of (e : string * Entry) (item : ProjectFolder) : Prop :=
  project_label item = "Project"
  ∧ project_value item = e.1
  ∧ ∃ below,
      e.2 = Directory below
      ∧ Forall2
          (λ name page, page_label page = "Page" ∧ page_value page +:+ ".json" = name)
          (filter (λ name, matches_json name = true) below.*1)
          (project_children item).

End ViewerVocabulary.

Module ViewerItemsVocabulary.
Import ViewerItems.

Section Vocabulary.
Context {number : Type}.

(** [object[name]], [None] for [undefined]. *)
Definition property (entries : list (string * @Json number)) (name : string)
    : option (@Json number) :=
  with_property entries name Some None.

(** No object of the value, at any depth, has ['pattern'] as its
    [_type]. *)
Fixpoint pattern_free (v : @Json number) : bool :=
  match v with
  | JArray elements => forallb pattern_free elements
  | JObject entries =>
      negb (is_pattern entries) && forallb (λ e, pattern_free e.2) entries
  | JNull | JBool _ | JNumber _ | JString _ => true
  end.

(** The values of a value that are not arrays or objects, in the order
    of the elements and properties. *)
Fixpoint primitives (v : @Json number) : list (@Json number) :=
  match v with
  | JArray elements => flat_map primitives elements
  | JObject entries => flat_map (λ e, primitives e.2) entries
  | JNull | JBool _ | JNumber _ | JString _ => [v]
  end.

(** The values the items without children hold, in order. *)
Fixpoint leaves (item : @ListItem number) : list (@Json number) :=
  match item with
  | Build_ListItem _ (OfJson v) None => [v]
  | Build_ListItem _ _ None => []
  | Build_ListItem _ _ (Some children) => flat_map leaves children
  end.

(** The byte [/]. *)
Definition is_slash (c : Ascii.ascii) : bool := Ascii.nat_of_ascii c =? 47.

(** Whether a string holds a [/]. *)
Fixpoint has_slash (s : string) : bool :=
  match s with
  | EmptyString => false
  | String c rest => is_slash c || has_slash rest
  end.

(** Whether a string holds no line terminator. *)
Fixpoint single_line (s : string) : bool :=
  match s with
  | EmptyString => true
  | String _ rest => negb (starts_with_terminator s) && single_line rest
  end.

End Vocabulary.
End ViewerItemsVocabulary.

Module AssetItemVocabulary.
Import AssetItem.

Section Vocabulary.
Context {Handler : Type}.

(** The value an element gives to an attribute. *)
Definition attribute (name : string) (node : @Node Handler) : option (@Attribute Handler) :=
  match node with
  | Element _ attributes _ =>
      (fix find (attributes : list (string * @Attribute Handler)) :=
         match attributes with
         | [] => None
         | (name', a) :: rest => if String.eqb name' name then Some a else find rest
         end) attributes
  | Fragment _ | Text _ | JFalse | JUndefined => None
  end.

(** The elements of a component inside the elements of another. *)
Definition elements_within (outer component : string) (node : @Node Handler)
    : list (@Node Handler) :=
  flat_map (elements_of component) (elements_of outer node).

End Vocabulary.
End AssetItemVocabulary.

(** ** Further scenarios *)

Module Stored.

(** A store that holds one record and no list. *)
Definition single_record : State :=
  {| win := true;
     projectPath := None;
     connections := Scenario.connection_a |}.

(** A store with a [null] among its records. *)
Definition with_null : State :=
  {| win := true;
     projectPath := None;
     connections := VArr [Scenario.connection_a; VNull] |}.

Definition connection_c : value := object [("id", VStr "L"); ("path", VStr "/lib/c")].

(** The world of [Scenario] with an open dialog that yields two files,
    the first of which can be read. *)
Definition world_assets : World :=
  {| electronIsDev := true;
     NODE_ENV_development := true;
     port := 1879%N;
     uuid_v4 := "u";
     showSaveDialog := None;
     showOpenDialog := Some ["/tmp/logo.png"; "/tmp/other.png"];
     Persistence_read := Persistence_read Scenario.world;
     readFile path :=
       if bool_decide (path = "/tmp/logo.png") then Some [Byte.x89; Byte.x50] else None;
     toString_base64 _ := "iVA=";
     MimeTypes_lookup path :=
       if bool_decide (path = "/tmp/logo.png") then Some "image/png" else None;
     compiler_run_err := false;
     outputFileSystem_readFileSync := outputFileSystem_readFileSync Scenario.world;
     Analyzer_scan := Analyzer_scan Scenario.world;
     path_exists := path_exists Scenario.world;
     Fs_exists_invalid := Fs_exists_invalid Scenario.world;
     Fs_exists_time := Fs_exists_time Scenario.world |}.

(** The world of [Scenario] with a first existence check that calls
    back after the others. *)
Definition world_slow_first : World :=
  {| electronIsDev := true;
     NODE_ENV_development := true;
     port := 1879%N;
     uuid_v4 := "u";
     showSaveDialog := showSaveDialog Scenario.world;
     showOpenDialog := showOpenDialog Scenario.world;
     Persistence_read := Persistence_read Scenario.world;
     readFile := readFile Scenario.world;
     toString_base64 := toString_base64 Scenario.world;
     MimeTypes_lookup := MimeTypes_lookup Scenario.world;
     compiler_run_err := false;
     outputFileSystem_readFileSync := outputFileSystem_readFileSync Scenario.world;
     Analyzer_scan := Analyzer_scan Scenario.world;
     path_exists := path_exists Scenario.world;
     Fs_exists_invalid := Fs_exists_invalid Scenario.world;
     Fs_exists_time n := match n with 0 => 1 | S _ => 0 end |}.

(** A Save of the project of [Scenario] under the path it can be read
    from. *)
Definition save : ServerMessage :=
  Scenario.request Save
    (object [("path", VStr "/tmp/demo.alva"); ("project", VObj Scenario.project_file)]).

Definition export : ServerMessage :=
  Scenario.request ExportPDF
    (object [("path", VStr "/tmp/page.pdf"); ("content", VStr "%PDF")]).

End Stored.

Module Styleguide.
Import Viewer ViewerItems.

(** A pattern folder with a file, a nested folder and a link to a
    directory. *)
Definition patterns : Entry :=
  Directory
    [("atoms", Directory [("button", Directory [("index.js", File)]);
                          ("README.md", File)]);
     ("linked", Link (Directory [("hidden", Directory [])]));
     ("package.json", File)].

(** JavaScript numbers as integers, for want of fractions in the
    scenario. *)
Definition is_zero (n : Z) : bool := (n =? 0)%Z.

(** The characters of a string of ASCII. *)
Fixpoint characters (s : string) : list string :=
  match s with
  | EmptyString => []
  | String c rest => String c "" :: characters rest
  end.

Definition plain : @Json Z :=
  JObject [("title", JString "Hi"); ("sizes", JArray [JNumber 1%Z; JNumber 2%Z])].

Definition button : @Json Z :=
  JObject [("_type", JString "pattern");
           ("patternSrc", JString "atoms/button/index");
           ("properties", JObject [("label", JString "OK")]);
           ("children", JArray [JString "text"])].

(** The item [createListItemFromPattern('Root', button)] returns. *)
Definition button_item : @ListItem Z :=
  Build_ListItem (KString "Root") (OfString "index")
    (Some [leaf (KString "label") (JString "OK"); leaf (KNumber 1) (JString "text")]).

End Styleguide.

(** * Properties *)

(** ** Values and lists *)

Lemma chosen_Some path : chosen (Some path) = true ↔ path ≠ "".
Proof.
  unfold chosen; simpl. destruct (String.eqb_spec path ""); simpl; split; congruence.
Qed.

Lemma chosen_true path : path ≠ "" → chosen (Some path) = true.
Proof. apply chosen_Some. Qed.

Lemma chosen_false (p : option string) :
  chosen p = false ↔ p = None ∨ p = Some "".
Proof.
  destruct p as [path|]; simpl.
  - unfold chosen; simpl. destruct (String.eqb_spec path ""); simpl; split.
    + subst; auto.
    + done.
    + done.
    + intros [|]; congruence.
  - split; auto.
Qed.

Lemma isEqual_refl (a : value) : isEqual a a = true.
Proof. unfold isEqual. by apply bool_decide_eq_true. Qed.

Lemma isEqual_eq (a b : value) : isEqual a b = true ↔ a = b.
Proof. unfold isEqual. apply bool_decide_eq_true. Qed.

Lemma Connection_shape (c : value) :
  Connection c ↔
  ∃ o path cid, c = VObj o ∧ o !! "path" = Some (VStr path) ∧ o !! "id" = Some (VStr cid).
Proof.
  unfold Connection. split.
  - unfold is_connection. destruct c as [| | | | |l|o]; simpl; try done.
    destruct (o !! "path") as [[]|] eqn:Hpath; simpl; try done.
    destruct (o !! "id") as [[]|] eqn:Hid; simpl; try done.
    intros _. by eexists _, _, _.
  - intros (o & path & cid & -> & Hpath & Hid).
    unfold is_connection; simpl. by rewrite Hpath, Hid.
Qed.

Lemma Connection_id (c : value) :
  Connection c → ∃ cid, get_prop c "id" = Some (VStr cid).
Proof.
  intros (o & path & cid & -> & _ & Hid)%Connection_shape. exists cid. simpl. by rewrite Hid.
Qed.

Lemma Connection_path (c : value) :
  Connection c → get_prop c "path" = Some (VStr (connection_path c)).
Proof.
  intros (o & path & cid & -> & Hpath & _)%Connection_shape.
  unfold connection_path. simpl. by rewrite Hpath.
Qed.

Lemma is_connection_not_null (c : value) : c ≠ VNull → is_Some (is_connection c).
Proof.
  intros Hc. unfold is_connection. destruct c; simpl; try done; try by eexists.
  repeat case_bool_decide; by eexists.
Qed.

Lemma stored_list_array (l : list value) : stored_list (VArr l) = Some l.
Proof. reflexivity. Qed.

Lemma stored_list_or_else (stored : value) (l : list value) :
  stored_list stored = Some l → or_else stored (VArr []) = VArr l.
Proof. unfold stored_list. destruct (or_else stored (VArr [])); congruence. Qed.

(** Filtering with a test that never throws is [filter]. *)
Lemma filter_throwing_total {A} (f : A → option bool) (P : A → Prop)
    `{∀ x, Decision (P x)} (l : list A) :
  Forall (λ x, f x = Some (bool_decide (P x))) l →
  filter_throwing f l = Some (filter P l).
Proof.
  induction 1 as [|x l Hx _ IH]; simpl; [done|].
  rewrite Hx, IH. rewrite filter_cons. by case_bool_decide; case_decide.
Qed.



(** *** [uniqWith] *)

Lemma arrayIncludesWith_isEqual (x : value) (l : list value) :
  arrayIncludesWith isEqual x l = bool_decide (x ∈ l).
Proof.
  induction l as [|y l IH]; simpl.
  - done.
  - destruct (isEqual x y) eqn:Hxy.
    + apply isEqual_eq in Hxy as ->. symmetry. apply bool_decide_eq_true. set_solver.
    + rewrite IH. apply bool_decide_ext.
      assert (x ≠ y) by (intros ->; by rewrite isEqual_refl in Hxy). set_solver.
Qed.

Lemma filter_filter_and {A} (P Q : A → Prop) `{∀ x, Decision (P x)} `{∀ x, Decision (Q x)}
    (l : list A) :
  filter P (filter Q l) = filter (λ x, P x ∧ Q x) l.
Proof.
  induction l as [|x l IH]; [done|].
  rewrite !filter_cons. repeat case_decide; rewrite ?filter_cons; repeat case_decide;
    try rewrite IH; try done; naive_solver.
Qed.

Lemma filter_ext_in {A} (P Q : A → Prop) `{∀ x, Decision (P x)} `{∀ x, Decision (Q x)}
    (l : list A) :
  (∀ x, x ∈ l → P x ↔ Q x) → filter P l = filter Q l.
Proof.
  induction l as [|x l IH]; intros Hext; [done|].
  rewrite !filter_cons.
  assert (filter P l = filter Q l) as -> by (apply IH; intros; apply Hext; set_solver).
  pose proof (Hext x ltac:(set_solver)).
  repeat case_decide; naive_solver.
Qed.

(** The loop of [baseUniq], told by what it has kept so far. *)
Lemma baseUniq_first_seen (l result : list value) :
  baseUniq isEqual l result = result ++ filter (λ y, y ∉ result) (first_seen l).
Proof.
  revert result. induction l as [|x l IH]; intros result; simpl.
  - by rewrite app_nil_r.
  - rewrite arrayIncludesWith_isEqual. rewrite filter_cons, filter_filter_and.
    case_bool_decide as Hx.
    + rewrite IH. rewrite decide_False by naive_solver.
      f_equal. apply filter_ext_in. intros y _. split; [|naive_solver].
      intros Hy. split; [done|]. by intros ->.
    + rewrite IH. rewrite decide_True by done.
      rewrite <- app_assoc. simpl. do 2 f_equal.
      apply filter_ext_in. intros y _. set_solver.
Qed.

Lemma uniqWith_first_seen (l : list value) : uniqWith l isEqual = first_seen l.
Proof.
  unfold uniqWith. rewrite baseUniq_first_seen. simpl.
  induction (first_seen l) as [|x k IH]; [done|].
  rewrite filter_cons, decide_True by set_solver. by f_equal.
Qed.

Lemma elem_of_first_seen (x : value) (l : list value) : x ∈ first_seen l ↔ x ∈ l.
Proof.
  induction l as [|y l IH]; simpl; [done|].
  rewrite !elem_of_cons, list_elem_of_filter, IH.
  destruct (decide (x = y)); naive_solver.
Qed.


Lemma filter_id {A} (P : A → Prop) `{∀ x, Decision (P x)} (l : list A) :
  Forall P l → filter P l = l.
Proof.
  induction 1 as [|x l Hx _ IH]; [done|].
  by rewrite filter_cons, decide_True, IH.
Qed.

Lemma first_seen_NoDup (l : list value) : NoDup l → first_seen l = l.
Proof.
  induction 1 as [|x l Hx _ IH]; simpl; [done|].
  rewrite IH. f_equal. apply filter_id, Forall_forall. by intros y Hy ->.
Qed.

Lemma first_seen_snoc (l : list value) (c : value) :
  first_seen (l ++ [c]) = if decide (c ∈ l) then first_seen l else first_seen l ++ [c].
Proof.
  induction l as [|x l IH]; simpl.
  - done.
  - rewrite IH. destruct (decide (c ∈ l)) as [Hin|Hnin].
    + destruct (decide (c ∈ x :: l)) as [_|Hn]; [done|].
      destruct Hn. apply elem_of_cons. by right.
    + rewrite filter_app, (filter_cons _ c), filter_nil.
      destruct (decide (c ∈ x :: l)) as [Hc|Hc].
      * apply elem_of_cons in Hc as [->|Hc]; [|done].
        rewrite decide_False by naive_solver. by rewrite app_nil_r.
      * rewrite decide_True; [done|]. intros ->. apply Hc, elem_of_cons. by left.
Qed.

(** ** Runs of the handler *)

Section Properties.
Context `{model : Model}.

(** The handler first passes the inbound message on. *)
Lemma sent_receive (w : World) (s : State) (message : ServerMessage) :
  sent (receive w (Some message) s) = message :: replies w s message.
Proof.
  unfold replies, receive, bind, sent; simpl. done.
Qed.

(** The laws of the handler monad, run by run. *)
Lemma bind_ret_l {A B} (a : A) (f : A → M B) (s : State) : bind (ret a) f s = f a s.
Proof. unfold bind, ret; simpl. by destruct (f a s). Qed.

Lemma bind_ret_r {A} (m : M A) (s : State) : bind m ret s = m s.
Proof.
  unfold bind, ret. destruct (m s) as [es s' [a|]]; simpl; [|done].
  by rewrite app_nil_r.
Qed.

Lemma bind_assoc {A B C} (m : M A) (f : A → M B) (g : B → M C) (s : State) :
  bind (bind m f) g s = bind m (λ a, bind (f a) g) s.
Proof.
  unfold bind. destruct (m s) as [es s' [a|]]; simpl; [|done].
  destruct (f a s') as [es' s'' [b|]]; simpl; [|done].
  by rewrite app_assoc.
Qed.

Lemma bind_attempt {A B} (o : option A) (a : A) (f : A → M B) (s : State) :
  o = Some a → bind (attempt o) f s = f a s.
Proof. intros ->. unfold bind, attempt; simpl. by destruct (f a s). Qed.

Lemma bind_send {B} (m : ServerMessage) (k : unit → M B) (s : State) :
  bind (send m) k s =
    {| effects := Send m :: effects (k () s);
       final := final (k () s);
       returned := returned (k () s) |}.
Proof. reflexivity. Qed.

(** The order of completion rearranges the calls and loses none. *)
Lemma insert_by_time_Permutation {A} (time : A → nat) (x : A) (l : list A) :
  insert_by_time time x l ≡ₚ x :: l.
Proof.
  induction l as [|y rest IH]; simpl; [done|].
  destruct (time x <=? time y); [done|].
  rewrite IH. apply Permutation_swap.
Qed.

Lemma by_completion_Permutation {A} (time : nat → nat) (calls : list A) :
  by_completion time calls ≡ₚ calls.
Proof.
  unfold by_completion.
  assert (∀ l : list (nat * A),
            foldr (insert_by_time (λ call, time call.1)) [] l ≡ₚ l) as Hsort.
  { induction l as [|x l IH]; simpl; [done|].
    by rewrite insert_by_time_Permutation, IH. }
  rewrite Hsort. clear Hsort.
  assert (∀ g : nat → A → nat * A, (∀ i x, (g i x).2 = x) → (imap g calls).*2 = calls)
    as Hsnd.
  { induction calls as [|x rest IH]; intros g Hg; simpl; [done|].
    rewrite Hg. f_equal. apply IH. intros i y. apply Hg. }
  by rewrite (Hsnd pair).
Qed.

(** The run of the callbacks. *)
Lemma call_back_run (message : ServerMessage) (calls : list (value * bool)) (s : State) :
  call_back message calls s =
    {| effects := (λ call, Send (CheckLibraryResponse_for message call.1 call.2)) <$> calls;
       final := s;
       returned := Some () |}.
Proof.
  induction calls as [|[c b] calls IH]; [done|].
  simpl. unfold bind, callback, send, perform. simpl. by rewrite IH.
Qed.

(** The run of the checks, by the checks started. *)
Lemma check_each_run (w : World) (message : ServerMessage) (l : list value) (s : State) :
  check_each w message l s =
    {| effects := (λ call, Send (CheckLibraryResponse_for message call.1 call.2))
                    <$> by_completion (Fs_exists_time w) (start_checks w l).1;
       final := s;
       returned := if (start_checks w l).2 then Some () else None |}.
Proof.
  unfold check_each. destruct (start_checks w l) as [started all]. simpl.
  unfold bind. rewrite call_back_run. simpl.
  destruct all; simpl; by rewrite app_nil_r.
Qed.

(** Over connections every check is started. *)
Lemma start_checks_connections (w : World) (l : list value) :
  Forall Connection l →
  start_checks w l = ((λ c, (c, path_exists w (connection_path c))) <$> l, true).
Proof.
  induction 1 as [|c l Hc _ IH]; [done|].
  simpl. by rewrite (Connection_path c Hc), IH.
Qed.

(** The checks of a Check-library request over a list of connections. *)
Lemma check_each_connections (w : World) (message : ServerMessage) (l : list value) (s : State) :
  Forall Connection l →
  check_each w message l s =
    {| effects := (λ call, Send (CheckLibraryResponse_for message call.1 call.2))
                    <$> by_completion (Fs_exists_time w)
                          ((λ c, (c, path_exists w (connection_path c))) <$> l);
       final := s;
       returned := Some () |}.
Proof.
  intros Hall. by rewrite check_each_run, (start_checks_connections w l Hall).
Qed.

(** The test of the Check-library filter on a connection. *)
Lemma matching_connections_list (stored : value) (message : ServerMessage)
    (l : list value) (requested : value) :
  stored_list stored = Some l →
  Forall Connection l →
  get_prop (payload message) "id" = Some requested →
  matching_connections stored message
  = Some (filter (λ c, get_prop c "id" = Some requested) l).
Proof.
  intros Hl Hall Hid. unfold matching_connections.
  rewrite (stored_list_or_else _ _ Hl). simpl.
  apply filter_throwing_total. eapply Forall_impl; [exact Hall|].
  intros c Hc. destruct (Connection_id c Hc) as [cid Hcid].
  rewrite Hcid, Hid. f_equal.
  destruct requested; simpl; try done.
  apply bool_decide_ext. split; congruence.
Qed.

Lemma check_library_run (w : World) (s : State) (message : ServerMessage)
    (l : list value) (requested : value) :
  type message = CheckLibraryRequest →
  stored_list (connections s) = Some l →
  Forall Connection l →
  get_prop (payload message) "id" = Some requested →
  replies w s message =
    (λ call, CheckLibraryResponse_for message call.1 call.2)
      <$> by_completion (Fs_exists_time w)
            ((λ c, (c, path_exists w (connection_path c)))
               <$> filter (λ c, get_prop c "id" = Some requested) l).
Proof.
  intros Htype Hl Hall Hid.
  unfold replies, receive. rewrite Htype. unfold on_CheckLibraryRequest.
  unfold bind, sent, read_state; simpl.
  rewrite (matching_connections_list _ _ _ _ Hl Hall Hid). simpl.
  rewrite check_each_connections.
  2:{ apply Forall_forall. intros c Hc. apply list_elem_of_filter in Hc as [_ Hc].
      by eapply Forall_forall in Hall. }
  simpl. induction (by_completion _ _) as [|c k IH]; [done|]. simpl. by f_equal.
Qed.

(** The replies to a Check-library request over a list of connections,
    up to the order in which the checks call back. *)
Lemma check_library_run_Permutation (w : World) (s : State) (message : ServerMessage)
    (l : list value) (requested : value) :
  type message = CheckLibraryRequest →
  stored_list (connections s) = Some l →
  Forall Connection l →
  get_prop (payload message) "id" = Some requested →
  replies w s message ≡ₚ
    (λ c, CheckLibraryResponse_for message c (path_exists w (connection_path c)))
      <$> filter (λ c, get_prop c "id" = Some requested) l.
Proof.
  intros Htype Hl Hall Hid.
  rewrite (check_library_run w s message l requested) by done.
  rewrite by_completion_Permutation. by rewrite <-list_fmap_compose.
Qed.

(** ** Replies *)

(** X27. Over a stored value that is nothing or a list of connections,
    a Check-library request is answered once per stored connection whose
    id is the requested one, in the order in which the existence checks
    call back: each answer carries the request's id and the one-element
    list [{id, path, connected}], [connected] telling whether that
    connection's path exists.  The handler itself ends normally. *)
Theorem check_library_replies (w : World) (s : State) (message : ServerMessage)
    (l : list value) (requested : value) :
  type message = CheckLibraryRequest →
  stored_list (connections s) = Some l →
  Forall Connection l →
  get_prop (payload message) "id" = Some requested →
  let reply c :=
    {| id := id message;
       type := CheckLibraryResponse;
       payload := VArr [object [("id", requested);
                                ("path", VStr (connection_path c));
                                ("connected", VBool (path_exists w (connection_path c)))]] |} in
  replies w s message ≡ₚ reply <$> filter (λ c, get_prop c "id" = Some requested) l
  ∧ returned (receive w (Some message) s) = Some ().
Proof.
  intros Htype Hl Hall Hid reply. split.
  - rewrite (check_library_run_Permutation w s message l requested) by done.
    assert ((λ c, CheckLibraryResponse_for message c (path_exists w (connection_path c)))
              <$> filter (λ c, get_prop c "id" = Some requested) l
            = reply <$> filter (λ c, get_prop c "id" = Some requested) l) as ->; [|done].
    apply Forall_fmap_ext_1, Forall_forall. intros c Hc.
    apply list_elem_of_filter in Hc as [Hcid Hc].
    rewrite Forall_forall in Hall.
    unfold CheckLibraryResponse_for, reply.
    by rewrite Hcid, (Connection_path c (Hall c Hc)).
  - unfold receive. rewrite Htype. unfold on_CheckLibraryRequest.
    unfold bind, read_state, send, perform; simpl.
    rewrite (matching_connections_list _ _ _ _ Hl Hall Hid). simpl.
    rewrite check_each_connections; [done|].
    apply Forall_forall. intros c Hc. apply list_elem_of_filter in Hc as [_ Hc].
    by eapply Forall_forall in Hall.
Qed.

(** Whatever the store holds, a Check-library run only sends
    Check-library responses carrying the request's id. *)
Lemma check_each_effects (w : World) (message : ServerMessage) (l : list value) (s : State) :
  Forall (λ e, ∃ c b, e = Send (CheckLibraryResponse_for message c b))
    (effects (check_each w message l s)).
Proof.
  rewrite check_each_run. simpl.
  apply Forall_fmap, Forall_forall. intros [c b] _. by eexists _, _.
Qed.

(** C3. An Open-file request: no reply when the dialog yields no path,
    none when [Persistence.read] answers with an error, and otherwise
    exactly one [OpenFileResponse] with the request's id, whose contents
    are those read with the chosen path written into [path]. *)
Theorem open_file_replies (w : World) (s : State) (message : ServerMessage) :
  type message = OpenFileRequest →
  (first_path (showOpenDialog w) = None ∨ first_path (showOpenDialog w) = Some "" →
     replies w s message = [])
  ∧ (∀ path cause,
       first_path (showOpenDialog w) = Some path → path ≠ "" →
       Persistence_read w path = Error cause →
       replies w s message = [])
  ∧ (∀ path contents,
       first_path (showOpenDialog w) = Some path → path ≠ "" →
       Persistence_read w path = Success contents →
       ∃ contents',
         replies w s message =
           [{| id := id message;
               type := OpenFileResponse;
               payload := object [("path", VStr path); ("contents", VObj contents')] |}]
         ∧ contents' !! "path" = Some (VStr path)
         ∧ ∀ k, k ≠ "path" → contents' !! k = contents !! k).
Proof.
  intros Htype. unfold replies, receive. rewrite Htype.
  unfold on_OpenFileRequest. split; [|split].
  - intros Hno. apply chosen_false in Hno.
    unfold bind, sent; simpl. rewrite Hno.
    destruct (electronIsDev w); reflexivity.
  - intros path cause Hpath Hne Hread.
    unfold bind, sent; simpl. rewrite Hpath, (chosen_true _ Hne), Hread.
    destruct (electronIsDev w); reflexivity.
  - intros path contents Hpath Hne Hread.
    exists (<["path" := VStr path]> contents). split; [|split].
    + unfold bind, sent; simpl. rewrite Hpath, (chosen_true _ Hne), Hread.
      destruct (electronIsDev w); reflexivity.
    + apply lookup_insert_eq.
    + intros k Hk. by apply lookup_insert_ne.
Qed.

(** C7. A Create-new-file request: when the save dialog yields a path,
    the handler creates the project named [Untitled Project] at that
    path, persists it there, and then sends exactly one
    [CreateNewFileResponse] with the request's id, whose [path] is the
    chosen path and whose [contents] is the serialized new project; when
    the dialog is cancelled nothing is persisted and no reply is sent. *)
Theorem create_new_file_replies (w : World) (s : State) (message : ServerMessage) :
  type message = CreateNewFileRequest →
  (∀ path,
     showSaveDialog w = Some path → path ≠ "" →
     let project := Project_create "Untitled Project" path in
     let response :=
       {| type := CreateNewFileResponse;
          id := id message;
          payload := object [("path", VStr path); ("contents", Project_toJSON project)] |} in
     effects (receive w (Some message) s)
       = [Send message; Persist path project; Send response]
     ∧ replies w s message = [response]
     ∧ get_prop (payload response) "path" = Some (VStr path)
     ∧ get_prop (payload response) "contents" = Some (Project_toJSON project))
  ∧ (showSaveDialog w = None →
       replies w s message = [] ∧ persisted (receive w (Some message) s) = []).
Proof.
  intros Htype. unfold replies, receive. rewrite Htype.
  unfold on_CreateNewFileRequest. split.
  - intros path Hpath Hne. cbv zeta.
    unfold bind, sent; simpl. rewrite Hpath, (chosen_true _ Hne).
    split; [|split; [|split]].
    + destruct (electronIsDev w); reflexivity.
    + destruct (electronIsDev w); reflexivity.
    + simpl. by rewrite lookup_insert_eq.
    + simpl. rewrite lookup_insert_ne by done. by rewrite lookup_insert_eq.
  - intros Hnone. unfold bind, sent, persisted; simpl. rewrite Hnone.
    destruct (electronIsDev w); done.
Qed.

(** C10. In development mode the Create-new-file and Open-file handlers
    store what the dialog yielded in [projectPath] before looking at it:
    after a cancelled dialog [projectPath] is [undefined], whatever it
    was, although nothing was persisted, read or replied. *)
Theorem cancelled_dialog_clears_projectPath (w : World) (s : State) (message : ServerMessage) :
  electronIsDev w = true →
  (type message = CreateNewFileRequest →
     projectPath (final (receive w (Some message) s)) = showSaveDialog w
     ∧ (showSaveDialog w = None →
          projectPath (final (receive w (Some message) s)) = None
          ∧ effects (receive w (Some message) s) = [Send message]))
  ∧ (type message = OpenFileRequest →
       projectPath (final (receive w (Some message) s)) = first_path (showOpenDialog w)
       ∧ (showOpenDialog w = None →
            projectPath (final (receive w (Some message) s)) = None
            ∧ effects (receive w (Some message) s) = [Send message])).
Proof.
  intros Hdev. split; intros Htype.
  - unfold receive. rewrite Htype. unfold on_CreateNewFileRequest, bind; simpl.
    rewrite Hdev. simpl. split.
    + answers_in_turn; done.
    + intros Hnone. rewrite Hnone. done.
  - unfold receive. rewrite Htype. unfold on_OpenFileRequest, bind; simpl.
    rewrite Hdev. simpl. split.
    + answers_in_turn; done.
    + intros Hnone. rewrite Hnone. done.
Qed.

(** The tags without a reply of their own: apart from App-loaded, the
    handler sends nothing after passing the message on. *)
Lemma no_reply_without_reply_type (w : World) (s : State) (message : ServerMessage) :
  reply_type (type message) = None →
  type message ≠ AppLoaded →
  replies w s message = [].
Proof.
  intros Hnone Hevent. unfold replies, receive.
  destruct (type message) eqn:Htype; simpl in Hnone; try discriminate; try done;
    unfold on_CheckForUpdatesRequest, on_ConnectedPatternLibraryNotification, on_Export,
      on_Save, bind, sent, attempt, read_state;
    answers_in_turn; done.
Qed.

(** App-loaded: in development mode, with a project path remembered
    that reads well, an [OpenFileResponse] under the message's id; in
    every case a [StartApp] under an id of its own. *)
Lemma app_loaded_replies (w : World) (s : State) (message : ServerMessage) :
  type message = AppLoaded →
  let start :=
    {| id := VStr (uuid_v4 w); type := StartApp; payload := VStr (pretty (port w)) |} in
  replies w s message =
    match projectPath s with
    | Some path =>
        if electronIsDev w && chosen (Some path) then
          match Persistence_read w path with
          | Success contents => [OpenFileResponse_for message path contents; start]
          | Error _ => [start]
          end
        else [start]
    | None => [start]
    end.
Proof.
  intros Htype. unfold replies, receive. rewrite Htype.
  unfold on_AppLoaded, bind, sent, read_state; simpl.
  destruct (projectPath s) as [path|]; simpl.
  - destruct (electronIsDev w); simpl; [|done].
    destruct (chosen (Some path)); simpl; [|done].
    by destruct (Persistence_read w path).
  - by destruct (electronIsDev w).
Qed.

(** ** The connection store *)

Lemma is_connection_decides (c : value) :
  c ≠ VNull → is_connection c = Some (bool_decide (Connection c)).
Proof.
  intros Hc. destruct (is_connection_not_null c Hc) as [b Hb]. rewrite Hb. f_equal.
  destruct b.
  - symmetry. by apply bool_decide_eq_true.
  - symmetry. apply bool_decide_eq_false. unfold Connection. congruence.
Qed.

Lemma filter_connections (l : list value) :
  VNull ∉ l → filter_throwing is_connection l = Some (filter Connection l).
Proof.
  intros Hnull. apply filter_throwing_total, Forall_forall.
  intros c Hc. apply is_connection_decides. by intros ->.
Qed.

Lemma array_find_total (f : value → option bool) (P : value → Prop)
    `{∀ x, Decision (P x)} (l : list value) :
  Forall (λ x, f x = Some (bool_decide (P x))) l →
  array_find f l = Some (head (filter P l)).
Proof.
  induction 1 as [|x l Hx _ IH]; simpl; [done|].
  rewrite Hx, filter_cons. case_bool_decide; [by rewrite decide_True | by rewrite decide_False].
Qed.

(** The connection an Update-pattern-library request resolves to is the
    first stored connection with the library's id. *)
Lemma find_connection_list (stored : value) (l : list value) (library_id0 : string) :
  stored_list stored = Some l →
  VNull ∉ l →
  find_connection stored library_id0
  = Some (head (filter (λ c, Connection c ∧ get_prop c "id" = Some (VStr library_id0)) l)).
Proof.
  intros Hl Hnull. unfold find_connection.
  rewrite (stored_list_or_else _ _ Hl). simpl. rewrite (filter_connections l Hnull).
  rewrite (array_find_total _ (λ c, get_prop c "id" = Some (VStr library_id0))).
  - rewrite filter_filter_and. do 2 f_equal. apply filter_ext_in. naive_solver.
  - apply Forall_forall. intros c Hc. apply list_elem_of_filter in Hc as [Hc _].
    destruct (Connection_id c Hc) as [cid ->]. f_equal. simpl.
    apply bool_decide_ext. split; congruence.
Qed.

Lemma filter_throwing_throws {A} (f : A → option bool) (l : list A) (x : A) :
  x ∈ l → f x = None → filter_throwing f l = None.
Proof.
  intros Hin Hx. induction l as [|y l IH]; [by apply elem_of_nil in Hin|].
  simpl. apply elem_of_cons in Hin as [<-|Hin]; [by rewrite Hx|].
  destruct (f y); [|done]. by rewrite IH.
Qed.

(** With a store the filter cannot walk, the lookup throws. *)
Lemma find_connection_throws (stored : value) (library_id0 : string) :
  (∀ l, stored_list stored = Some l → VNull ∈ l) →
  find_connection stored library_id0 = None.
Proof.
  intros Hbad. unfold find_connection. unfold stored_list in Hbad.
  destruct (or_else stored (VArr [])) as [| | | | |l|]; simpl; try done.
  by rewrite (filter_throwing_throws is_connection l VNull (Hbad l eq_refl)).
Qed.

(** X26. An Update-pattern-library request. When no stored connection
    has the id of the request's pattern library, no reply is sent,
    whatever the store holds.  Otherwise, over a stored value that is
    nothing or a list of records none of which is [null], the analyzer
    is run against the
    path of the first such connection with the callbacks of the
    request's library, and the one reply carries the request's id, the
    [ConnectPatternLibraryResponse] tag and the analysis; it is the
    reply a Connect-pattern-library request with the same id and payload
    gets when its dialog yields that path. *)
Theorem update_pattern_library_replies (w : World) (s : State) (message : ServerMessage) :
  type message = UpdatePatternLibraryRequest →
  let library := library_of message in
  let matching (l : list value) :=
    filter (λ c, Connection c ∧ get_prop c "id" = Some (VStr (library_id library))) l in
  ((∀ l, stored_list (connections s) = Some l → matching l = []) →
     replies w s message = [])
  ∧ (∀ l c rest,
       stored_list (connections s) = Some l →
       VNull ∉ l →
       matching l = c :: rest →
       replies w s message =
         [{| type := ConnectPatternLibraryResponse;
             id := id message;
             payload := analysis_of (Analyzer_analyze w (connection_path c) library) |}]
       ∧ (connection_path c ≠ "" →
          ∀ w',
            showOpenDialog w' = Some [connection_path c] →
            Analyzer_scan w' = Analyzer_scan w →
            replies w' s {| id := id message;
                            type := ConnectPatternLibraryRequest;
                            payload := payload message |}
            = replies w s message)).
Proof.
  intros Htype library matching.
  assert (replies w s message =
            match find_connection (connections s) (library_id library) with
            | Some (Some c) =>
                match get_prop c "path" with
                | Some (VStr path) =>
                    [ConnectPatternLibraryResponse_for message
                       (analysis_of (Analyzer_analyze w path library))]
                | _ => []
                end
            | _ => []
            end) as Hrun.
  { unfold replies, receive. rewrite Htype.
    unfold on_UpdatePatternLibraryRequest, bind, sent, attempt, read_state; simpl.
    subst library. unfold library_of.
    destruct (find_connection _ _) as [[c|]|]; simpl; try done.
    by destruct (get_prop c "path") as [[]|]. }
  split.
  - intros Hnone. rewrite Hrun.
    destruct (stored_list (connections s)) as [l|] eqn:Hl.
    + destruct (decide (VNull ∈ l)) as [Hnull|Hnull].
      * rewrite find_connection_throws; [done|]. intros l' Hl'. congruence.
      * rewrite (find_connection_list _ l _ Hl Hnull).
        fold (matching l). by rewrite (Hnone l eq_refl).
    + rewrite find_connection_throws; [done|]. intros l' Hl'. congruence.
  - intros l c rest Hl Hnull Hmatching.
    assert (replies w s message =
              [ConnectPatternLibraryResponse_for message
                 (analysis_of (Analyzer_analyze w (connection_path c) library))]) as Hone.
    { rewrite Hrun, (find_connection_list _ l _ Hl Hnull).
      fold (matching l). rewrite Hmatching. simpl.
      assert (Connection c) as Hc.
      { assert (c ∈ matching l) as Hin by (rewrite Hmatching; apply elem_of_cons; by left).
        apply list_elem_of_filter in Hin. naive_solver. }
      by rewrite (Connection_path c Hc). }
    split; [exact Hone|].
    intros Hne w' Hdialog Hscan. rewrite Hone.
    unfold replies, receive; simpl.
    unfold on_ConnectPatternLibraryRequest, bind, sent; simpl.
    rewrite Hdialog; simpl. rewrite (chosen_true _ Hne). simpl.
    unfold Analyzer_analyze. by rewrite Hscan.
Qed.

(** What a notification stores. *)
Lemma upsert_records (stored : value) (c : value) :
  VNull ∉ previous_records stored →
  upsert stored c = Some (first_seen (filter Connection (previous_records stored) ++ [c])).
Proof.
  intros Hnull. unfold upsert.
  by rewrite (filter_connections _ Hnull), uniqWith_first_seen.
Qed.




(** X25. The tags with one reply: the handler passes the request on and
    then sends replies that all carry the request's id and the reply
    tag; for every tag but Check-library it sends one reply when the
    run is one that [answered] tells from the environment and the
    store, and none otherwise, be it on a silent branch or because an
    exception ended the run.  A Check-library request over a stored
    value that is nothing or a list of connections gets as many replies
    as there are stored connections with the requested id. *)
Theorem one_reply_per_request (w : World) (s : State) (message : ServerMessage)
    (response : ServerMessageType) :
  reply_type (type message) = Some response →
  sent (receive w (Some message) s) = message :: replies w s message
  ∧ Forall (λ r, id r = id message ∧ type r = response) (replies w s message)
  ∧ (type message ≠ CheckLibraryRequest →
       length (replies w s message) = if answered w s message then 1 else 0)
  ∧ (type message = CheckLibraryRequest →
       ∀ l requested,
         stored_list (connections s) = Some l →
         Forall Connection l →
         get_prop (payload message) "id" = Some requested →
         length (replies w s message)
         = length (filter (λ c, get_prop c "id" = Some requested) l)).
Proof.
  intros Hreply. split; [apply sent_receive|].
  destruct (type message) eqn:Htype; simpl in Hreply; try discriminate;
    injection Hreply as <-.
  - (* Asset-read *)
    unfold replies, receive, answered. rewrite Htype.
    unfold on_AssetReadRequest, bind, sent, attempt.
    answers_in_turn; (split; [repeat constructor|]); (split; [|done]); intros _;
      use_answers; try done.
  - (* Check-library *)
    split; [|split; [done|]].
    + unfold replies, receive. rewrite Htype.
      unfold on_CheckLibraryRequest, bind, sent, attempt, read_state; simpl.
      destruct (matching_connections (connections s) message) as [matching|]; simpl;
        [|constructor].
      pose proof (check_each_effects w message matching s) as Heffects.
      induction Heffects as [|e k (c & b & ->) _ IH]; simpl; [constructor|].
      by constructor.
    + intros _ l requested Hl Hall Hid.
      rewrite (check_library_run w s message l requested) by done.
      rewrite length_fmap. rewrite by_completion_Permutation. by rewrite length_fmap.
  - (* Connect-pattern-library *)
    unfold replies, receive, answered. rewrite Htype.
    unfold on_ConnectPatternLibraryRequest, bind, sent.
    answers_in_turn; (split; [repeat constructor|]); (split; [|done]); intros _;
      use_answers; try done.
  - (* Create-new-file *)
    unfold replies, receive, answered. rewrite Htype.
    unfold on_CreateNewFileRequest, bind, sent.
    answers_in_turn; (split; [repeat constructor|]); (split; [|done]); intros _;
      use_answers; try done.
  - (* Create-script-bundle *)
    unfold replies, receive, answered. rewrite Htype.
    unfold on_CreateScriptBundleRequest, callback, bundle, bind, sent, attempt.
    change ("/" +:+ "renderer" +:+ ".js") with "/renderer.js".
    change ("/" +:+ "preview" +:+ ".js") with "/preview.js".
    answers_in_turn; (split; [repeat constructor|]); (split; [|done]); intros _;
      use_answers; try done.
  - (* Open-file *)
    unfold replies, receive, answered. rewrite Htype.
    unfold on_OpenFileRequest, bind, sent.
    answers_in_turn; (split; [repeat constructor|]); (split; [|done]); intros _;
      use_answers; try done.
  - (* Update-pattern-library *)
    assert (replies w s message =
              match find_connection (connections s) (library_id (library_of message)) with
              | Some (Some c) =>
                  match get_prop c "path" with
                  | Some (VStr path) =>
                      [ConnectPatternLibraryResponse_for message
                         (analysis_of (Analyzer_analyze w path (library_of message)))]
                  | _ => []
                  end
              | _ => []
              end) as Hrun.
    { unfold replies, receive. rewrite Htype.
      unfold on_UpdatePatternLibraryRequest, bind, sent, attempt, read_state; simpl.
      unfold library_of.
      destruct (find_connection _ _) as [[c|]|]; simpl; try done.
      by destruct (get_prop c "path") as [[]|]. }
    unfold answered. rewrite Htype, Hrun.
    destruct (stored_list (connections s)) as [l|] eqn:Hl.
    2:{ rewrite find_connection_throws; [by repeat split|]. intros l' Hl'. congruence. }
    destruct (decide (VNull ∈ l)) as [Hnull|Hnull].
    { rewrite find_connection_throws by (intros l' Hl'; congruence).
      rewrite bool_decide_false by tauto. by repeat split. }
    rewrite (find_connection_list _ l _ Hl Hnull), bool_decide_true by done. simpl.
    destruct (filter _ l) as [|c rest] eqn:Hmatching; simpl.
    { by repeat split. }
    assert (Connection c) as Hc.
    { assert (c ∈ c :: rest) as Hin by (apply elem_of_cons; by left).
      rewrite <-Hmatching in Hin. apply list_elem_of_filter in Hin. naive_solver. }
    rewrite (Connection_path c Hc).
    split; [by repeat constructor|]. split; [|done]. intros _.
    by destruct (decide (c :: rest ≠ [])).
Qed.

(** ** Global identifiers *)








(** ** The preview relay *)

(** C9, as the code has it. A preview envelope that parses to a message
    with one of the five recognized tags is re-emitted exactly once,
    with the message's id, under the translated tag; the payload is the
    message's for content response, sketch-export response, select and
    highlight, and [undefined] for unselect.  The outcome depends on the
    envelope alone.  An envelope that does not parse, or parses to
    [null], is logged and nothing is re-emitted. *)
Theorem relay_translates (JSON_parse : string → option value)
    (tags : PreviewMessageType → value) (envelope : string) :
  (∀ t1 t2, strict_eq (tags t1) (tags t2) = bool_decide (t1 = t2)) →
  (∀ message t,
     JSON_parse envelope = Some message →
     get_prop message "type" = Some (tags t) →
     on_client_message JSON_parse tags envelope =
       {| relayed :=
            [{| id := default VUndef (get_prop message "id");
                type := translated t;
                payload := match t with
                           | PreviewUnselectElement => VUndef
                           | _ => default VUndef (get_prop message "payload")
                           end |}];
          logged := false |})
  ∧ (JSON_parse envelope = None ∨ JSON_parse envelope = Some VNull →
     on_client_message JSON_parse tags envelope = {| relayed := []; logged := true |}).
Proof.
  intros Htags. split.
  - intros message t Hparse Htype. unfold on_client_message, relay_switch.
    rewrite Hparse, Htype. rewrite !Htags. by destruct t.
  - intros [Hparse|Hparse]; unfold on_client_message; by rewrite Hparse.
Qed.

End Properties.

(** ** The statements on the concrete setting *)

Section Exercised.
#[local] Existing Instance Scenario.model.

Lemma buttons_collision_free : collision_free Scenario.buttons.
Proof.
  intros ns c1 c2 g H1 H2. destruct ns; simpl in *;
    try (by rewrite lookup_empty in H1).
  apply lookup_singleton_Some in H1 as [<- _].
  by apply lookup_singleton_Some in H2 as [<- _].
Qed.

Lemma scenario_connections :
  Forall Connection [Scenario.connection_a; Scenario.connection_b].
Proof.
  repeat constructor.
Qed.

Lemma preview_tags_distinct (t1 t2 : PreviewMessageType) :
  strict_eq (Scenario.preview_tags t1) (Scenario.preview_tags t2) = bool_decide (t1 = t2).
Proof. by destruct t1, t2. Qed.

(** X25 on a Create-new-file request with a path chosen: one reply. *)
Lemma one_reply_per_request_witness :
  sent (receive Scenario.world (Some (Scenario.request CreateNewFileRequest VUndef))
          Scenario.state)
  = Scenario.request CreateNewFileRequest VUndef
    :: replies Scenario.world Scenario.state (Scenario.request CreateNewFileRequest VUndef)
  ∧ length (replies Scenario.world Scenario.state
              (Scenario.request CreateNewFileRequest VUndef)) = 1.
Proof.
  destruct (one_reply_per_request Scenario.world Scenario.state
              (Scenario.request CreateNewFileRequest VUndef) CreateNewFileResponse eq_refl)
    as (Hsent & _ & Hone & _).
  split; [exact Hsent|].
  apply Hone. discriminate.
Defined.


(** C3 on a chosen file that reads well. *)
Lemma open_file_replies_witness :
  ∃ contents',
    replies Scenario.world Scenario.state (Scenario.request OpenFileRequest VUndef)
    = [{| id := VStr "1";
          type := OpenFileResponse;
          payload := object [("path", VStr "/tmp/demo.alva"); ("contents", VObj contents')] |}]
    ∧ contents' !! "path" = Some (VStr "/tmp/demo.alva")
    ∧ contents' !! "name" = Some (VStr "Demo").
Proof.
  destruct (open_file_replies Scenario.world Scenario.state
              (Scenario.request OpenFileRequest VUndef) eq_refl) as (_ & _ & Hread).
  destruct (Hread "/tmp/demo.alva" Scenario.project_file eq_refl) as (contents' & ? & ? & Hrest).
  - discriminate.
  - reflexivity.
  - exists contents'. split; [done|]. split; [done|]. by rewrite Hrest.
Defined.

(** X26 on a store with two connections of the library. *)
Lemma update_pattern_library_replies_witness :
  replies Scenario.world Scenario.state (Scenario.request UpdatePatternLibraryRequest VUndef)
  = [{| type := ConnectPatternLibraryResponse;
        id := VStr "1";
        payload := analysis_of (Analyzer_analyze Scenario.world "/lib/a" Scenario.buttons) |}].
Proof.
  destruct (update_pattern_library_replies Scenario.world Scenario.state
              (Scenario.request UpdatePatternLibraryRequest VUndef) eq_refl)
    as [_ Hfound].
  apply (Hfound [Scenario.connection_a; Scenario.connection_b]
           Scenario.connection_a [Scenario.connection_b]).
  - reflexivity.
  - intros Hnull. apply elem_of_cons in Hnull as [?|Hnull]; [discriminate|].
    apply elem_of_cons in Hnull as [?|Hnull]; [discriminate|]. by apply elem_of_nil in Hnull.
  - reflexivity.
Defined.

(** X27 on two connections of the library, the first path existing and
    the second not, the first check calling back last: the reply for
    the second connection is sent first. *)
Lemma check_library_replies_witness :
  replies Stored.world_slow_first Scenario.state
    (Scenario.request CheckLibraryRequest (object [("id", VStr "L")]))
  = [{| id := VStr "1";
        type := CheckLibraryResponse;
        payload := VArr [object [("id", VStr "L"); ("path", VStr "/lib/b");
                                 ("connected", VBool false)]] |};
     {| id := VStr "1";
        type := CheckLibraryResponse;
        payload := VArr [object [("id", VStr "L"); ("path", VStr "/lib/a");
                                 ("connected", VBool true)]] |}]
  ∧ replies Stored.world_slow_first Scenario.state
      (Scenario.request CheckLibraryRequest (object [("id", VStr "L")]))
    ≡ₚ [{| id := VStr "1";
           type := CheckLibraryResponse;
           payload := VArr [object [("id", VStr "L"); ("path", VStr "/lib/a");
                                    ("connected", VBool true)]] |};
        {| id := VStr "1";
           type := CheckLibraryResponse;
           payload := VArr [object [("id", VStr "L"); ("path", VStr "/lib/b");
                                    ("connected", VBool false)]] |}].
Proof.
  split; [reflexivity|].
  exact (proj1 (check_library_replies Stored.world_slow_first Scenario.state
                  (Scenario.request CheckLibraryRequest (object [("id", VStr "L")]))
                  [Scenario.connection_a; Scenario.connection_b] (VStr "L")
                  eq_refl eq_refl scenario_connections eq_refl)).
Defined.


(** C7 on scenario A. *)
Lemma create_new_file_replies_witness :
  replies Scenario.world Scenario.state (Scenario.request CreateNewFileRequest VUndef)
  = [{| type := CreateNewFileResponse;
        id := VStr "1";
        payload :=
          object [("path", VStr "/tmp/Untitled Project.alva");
                  ("contents", object [("name", VStr "Untitled Project");
                                       ("path", VStr "/tmp/Untitled Project.alva")])] |}].
Proof.
  destruct (create_new_file_replies Scenario.world Scenario.state
              (Scenario.request CreateNewFileRequest VUndef) eq_refl) as [Hchosen _].
  destruct (Hchosen "/tmp/Untitled Project.alva" eq_refl) as (_ & Hreplies & _).
  - discriminate.
  - exact Hreplies.
Defined.

(** C9 on an unselect envelope. *)
Lemma relay_translates_witness :
  on_client_message Scenario.parse Scenario.preview_tags "unselect"
  = {| relayed := [{| id := VStr "7"; type := UnselectElement; payload := VUndef |}];
       logged := false |}.
Proof.
  destruct (relay_translates Scenario.parse Scenario.preview_tags "unselect"
              preview_tags_distinct) as [Hparsed _].
  apply (Hparsed Scenario.unselect PreviewUnselectElement); reflexivity.
Defined.

(** C10 on cancelled dialogs. *)
Lemma cancelled_dialog_clears_projectPath_witness :
  projectPath Scenario.state = Some "/tmp/previous.alva"
  ∧ projectPath (final (receive Scenario.world_cancelled
                          (Some (Scenario.request CreateNewFileRequest VUndef))
                          Scenario.state)) = None
  ∧ projectPath (final (receive Scenario.world_cancelled
                          (Some (Scenario.request OpenFileRequest VUndef))
                          Scenario.state)) = None.
Proof.
  destruct (cancelled_dialog_clears_projectPath Scenario.world_cancelled Scenario.state
              (Scenario.request CreateNewFileRequest VUndef) eq_refl) as [Hcreate _].
  destruct (cancelled_dialog_clears_projectPath Scenario.world_cancelled Scenario.state
              (Scenario.request OpenFileRequest VUndef) eq_refl) as [_ Hopen].
  split; [reflexivity|]. split.
  - apply (Hcreate eq_refl). reflexivity.
  - apply (Hopen eq_refl). reflexivity.
Defined.

(** C9 as stated fails on unselect: the message parsed from the
    envelope carries the payload ["x"], the message re-emitted carries
    [undefined]. *)
Lemma relay_unselect_drops_payload :
  Scenario.parse "unselect" = Some Scenario.unselect
  ∧ get_prop Scenario.unselect "type" = Some (Scenario.preview_tags PreviewUnselectElement)
  ∧ get_prop Scenario.unselect "payload" = Some (VStr "x")
  ∧ payload <$> relayed (on_client_message Scenario.parse Scenario.preview_tags "unselect")
    = [VUndef]
  ∧ VUndef ≠ VStr "x".
Proof. repeat split; try reflexivity. discriminate. Qed.

(** C8 fails on the Check-library handler. With a record without a
    [path] in the store, the filter of the Update-pattern-library and
    notification handlers rejects the record, the Update-pattern-library
    handler finds no connection, and the Check-library handler matches
    the record and answers for it. *)
Lemma check_library_keeps_malformed :
  let s := {| win := true; projectPath := None; connections := VArr [Scenario.malformed] |} in
  let message := Scenario.request CheckLibraryRequest (object [("id", VStr "L")]) in
  is_connection Scenario.malformed = Some false
  ∧ find_connection (connections s) "L" = Some None
  ∧ upsert (connections s) Scenario.connection_a = Some [Scenario.connection_a]
  ∧ matching_connections (connections s) message = Some [Scenario.malformed]
  ∧ replies Scenario.world s message
    = [{| id := VStr "1";
          type := CheckLibraryResponse;
          payload := VArr [object [("id", VStr "L"); ("path", VUndef);
                                   ("connected", VBool false)]] |}].
Proof. repeat split; reflexivity. Qed.

(** C1 fails on an Asset-read request whose file cannot be read. The
    dialog yields a path, so the run is on none of the silent branches;
    [readFile] is rejected, the handler has nothing to catch it, and the
    run ends there: the request is passed on and never answered. *)
Lemma asset_read_rejected_no_reply :
  let message := Scenario.request AssetReadRequest VUndef in
  reply_type (type message) = Some AssetReadResponse
  ∧ showOpenDialog Scenario.world = Some ["/tmp/demo.alva"]
  ∧ readFile Scenario.world "/tmp/demo.alva" = None
  ∧ silent Scenario.world Scenario.state message = false
  ∧ receive Scenario.world (Some message) Scenario.state
    = {| effects := [Send message]; final := Scenario.state; returned := None |}
  ∧ replies Scenario.world Scenario.state message = [].
Proof. repeat split; reflexivity. Qed.

(** C4 fails on a store that holds one record and no list, and on a
    list with a [null]. The stored record is a connection with the id
    of the request's library, and the Update-pattern-library handler
    throws on either store and answers nothing, while the notification
    handler reads the single record as a list of one. *)
Lemma update_pattern_library_stopped_by_store :
  let message := Scenario.request UpdatePatternLibraryRequest VUndef in
  let notification :=
    Scenario.request ConnectedPatternLibraryNotification Scenario.connection_b in
  is_connection Scenario.connection_a = Some true
  ∧ get_prop Scenario.connection_a "id" = Some (VStr (library_id (library_of message)))
  ∧ connections Stored.single_record = Scenario.connection_a
  ∧ receive Scenario.world (Some message) Stored.single_record
    = {| effects := [Send message]; final := Stored.single_record; returned := None |}
  ∧ connections Stored.with_null = VArr [Scenario.connection_a; VNull]
  ∧ receive Scenario.world (Some message) Stored.with_null
    = {| effects := [Send message]; final := Stored.with_null; returned := None |}
  ∧ connections (final (receive Scenario.world (Some notification) Stored.single_record))
    = VArr [Scenario.connection_a; Scenario.connection_b].
Proof. repeat split; reflexivity. Qed.

(** C5 fails on the same two stores. The stored record is a connection
    with the requested id, and the Check-library handler throws on
    either store and answers nothing. *)
Lemma check_library_stopped_by_store :
  let message := Scenario.request CheckLibraryRequest (object [("id", VStr "L")]) in
  is_connection Scenario.connection_a = Some true
  ∧ get_prop Scenario.connection_a "id" = get_prop (payload message) "id"
  ∧ connections Stored.single_record = Scenario.connection_a
  ∧ receive Scenario.world (Some message) Stored.single_record
    = {| effects := [Send message]; final := Stored.single_record; returned := None |}
  ∧ connections Stored.with_null = VArr [Scenario.connection_a; VNull]
  ∧ receive Scenario.world (Some message) Stored.with_null
    = {| effects := [Send message]; final := Stored.with_null; returned := None |}.
Proof. repeat split; reflexivity. Qed.

End Exercised.

(** * Further properties of the router *)

Section RouterProperties.
Context `{model : Model}.

(** ** State *)

Lemma check_each_final (w : World) (message : ServerMessage) (l : list value) (s : State) :
  final (check_each w message l s) = s.
Proof. by rewrite check_each_run. Qed.

(** X1. The handler never touches [win]; it writes the connection store
    only on a Connected-pattern-library notification; and it writes
    [projectPath] only on a Create-new-file or Open-file request when
    [electronIsDev] is set, or on a Save when [NODE_ENV] is
    [development]. *)
Theorem state_frame (w : World) (s : State) (message : option ServerMessage) :
  let after := final (receive w message s) in
  win after = win s
  ∧ ((∀ m, message = Some m → type m ≠ ConnectedPatternLibraryNotification) →
     connections after = connections s)
  ∧ (projectPath after ≠ projectPath s →
     ∃ m, message = Some m
          ∧ ((type m = CreateNewFileRequest ∨ type m = OpenFileRequest)
             ∧ electronIsDev w = true
             ∨ type m = Save ∧ NODE_ENV_development w = true)).
Proof.
  destruct message as [m|].
  2:{ cbv zeta; simpl. split; [done|]. split; [done|]. intros Hchanged. by destruct Hchanged. }
  cbv zeta. unfold receive.
  destruct (type m) eqn:Htype;
    lazymatch goal with
    | _ : type m = CheckLibraryRequest |- _ =>
        unfold on_CheckLibraryRequest, bind, attempt, read_state; simpl;
        destruct (matching_connections (connections s) m) as [matching|]; simpl;
        rewrite ?check_each_final;
        (split; [done|]); (split; [done|]); intros Hchanged; by destruct Hchanged
    | _ =>
        unfold on_CheckForUpdatesRequest, on_AppLoaded, on_AssetReadRequest,
          on_ConnectPatternLibraryRequest, on_ConnectedPatternLibraryNotification,
          on_CreateNewFileRequest, on_CreateScriptBundleRequest, on_Export,
          on_OpenFileRequest, on_Save, on_UpdatePatternLibraryRequest,
          bind, attempt, read_state, write_state, send, perform, ret, throw;
        answers_in_turn;
        (split; [done|]); (split; [try done; intros Hm; by destruct (Hm m eq_refl)|]);
        first [ by intros Hchanged; destruct Hchanged
              | intros _; exists m; split; [done|]; rewrite Htype; by eauto ]
    end.
Qed.

(** ** Messages without a reply *)

(** X2. A missing message does nothing.  A message whose tag has no reply
    of its own (Save, the four exports, the menus, the update check,
    the notification, and every tag [main.ts] does not name) is passed
    on and nothing else is ever sent for it, whatever the state and the
    environment. *)
Theorem fire_and_forget (w : World) (s : State) :
  (effects (receive w None s) = [] ∧ final (receive w None s) = s)
  ∧ ∀ message,
      reply_type (type message) = None →
      type message ≠ AppLoaded →
      sent (receive w (Some message) s) = [message].
Proof.
  split; [done|]. intros message Hnone Hevent.
  rewrite sent_receive. f_equal. unfold replies, receive.
  destruct (type message) eqn:Htype; simpl in Hnone; try discriminate; try done;
    unfold on_CheckForUpdatesRequest, on_ConnectedPatternLibraryNotification, on_Export,
      on_Save, bind, sent, attempt, read_state;
    answers_in_turn; done.
Qed.

(** ** App-loaded *)

(** X3. App-loaded leaves the state alone and always ends by sending one
    [StartApp] under the id [uuid.v4()] drew, carrying the port in
    decimal.  Before it, it re-opens the remembered project, under the
    id of the message, exactly when [electronIsDev] is set, a non-empty
    path is remembered and reading it succeeds. *)
Theorem app_loaded_starts_app (w : World) (s : State) (message : ServerMessage) :
  type message = AppLoaded →
  let start :=
    {| id := VStr (uuid_v4 w); type := StartApp; payload := VStr (pretty (port w)) |} in
  final (receive w (Some message) s) = s
  ∧ returned (receive w (Some message) s) = Some ()
  ∧ (∀ path contents,
       electronIsDev w = true →
       projectPath s = Some path → path ≠ "" →
       Persistence_read w path = Success contents →
       replies w s message = [OpenFileResponse_for message path contents; start])
  ∧ (electronIsDev w = false
     ∨ projectPath s = None
     ∨ projectPath s = Some ""
     ∨ (∃ path cause, projectPath s = Some path ∧ Persistence_read w path = Error cause) →
     replies w s message = [start]).
Proof.
  intros Htype start.
  pose proof (app_loaded_replies w s message Htype) as Hreplies. cbv zeta in Hreplies.
  split; [|split; [|split]].
  - unfold receive. rewrite Htype. unfold on_AppLoaded, bind, read_state, send, perform, ret.
    answers_in_turn; done.
  - unfold receive. rewrite Htype. unfold on_AppLoaded, bind, read_state, send, perform, ret.
    answers_in_turn; done.
  - intros path contents Hdev Hpath Hne Hread.
    by rewrite Hreplies, Hpath, Hdev, (chosen_true _ Hne), Hread.
  - intros Hnot. rewrite Hreplies.
    destruct Hnot as [Hdev|[Hpath|[Hpath|(path & cause & Hpath & Hread)]]].
    + rewrite Hdev. by destruct (projectPath s).
    + by rewrite Hpath.
    + rewrite Hpath. by rewrite andb_false_r.
    + rewrite Hpath, Hread. by destruct (electronIsDev w && chosen (Some path)).
Qed.

(** ** Save *)

(** X4. A Save sets the path of the payload on the deserialized project and
    persists the project once, under the path the project then reports;
    it sends no reply.  It remembers that path exactly when [NODE_ENV]
    is [development].  A Save without a payload throws before anything
    is persisted or remembered. *)
Theorem save_persists (w : World) (s : State) (message : ServerMessage) :
  type message = Save →
  (∀ serialized path,
     get_prop (payload message) "project" = Some serialized →
     get_prop (payload message) "path" = Some path →
     let project := Project_setPath path (Project_from serialized) in
     effects (receive w (Some message) s)
       = [Send message; Persist (Project_getPath project) project]
     ∧ returned (receive w (Some message) s) = Some ()
     ∧ final (receive w (Some message) s)
       = if NODE_ENV_development w
         then set_projectPath (Some (Project_getPath project)) s
         else s)
  ∧ (payload message = VUndef ∨ payload message = VNull →
     effects (receive w (Some message) s) = [Send message]
     ∧ returned (receive w (Some message) s) = None
     ∧ final (receive w (Some message) s) = s).
Proof.
  intros Htype. unfold receive. rewrite Htype. unfold on_Save. split.
  - intros serialized path Hproject Hpath. cbv zeta.
    unfold bind, attempt; simpl. rewrite Hproject; simpl. rewrite Hpath; simpl.
    by destruct (NODE_ENV_development w).
  - intros [Hpayload|Hpayload]; unfold bind, attempt; simpl; by rewrite Hpayload.
Qed.

(** X5. What App-loaded re-opens is what the last Save, Create-new-file or
    Open-file left in [projectPath]: the saved path after a Save under
    [NODE_ENV] [development], the created path after a Create-new-file
    under [electronIsDev], nothing after a cancelled dialog under
    [electronIsDev]; a Save outside [NODE_ENV] [development] leaves
    App-loaded answering as before it. *)
Theorem app_loaded_reopens_remembered (w1 w2 : World) (s : State) (m1 m2 : ServerMessage) :
  type m2 = AppLoaded →
  electronIsDev w2 = true →
  let s1 := final (receive w1 (Some m1) s) in
  let start :=
    {| id := VStr (uuid_v4 w2); type := StartApp; payload := VStr (pretty (port w2)) |} in
  (∀ serialized path contents,
     type m1 = Save →
     get_prop (payload m1) "project" = Some serialized →
     get_prop (payload m1) "path" = Some path →
     let saved := Project_getPath (Project_setPath path (Project_from serialized)) in
     (NODE_ENV_development w1 = true → saved ≠ "" →
      Persistence_read w2 saved = Success contents →
      replies w2 s1 m2 = [OpenFileResponse_for m2 saved contents; start])
     ∧ (NODE_ENV_development w1 = false → replies w2 s1 m2 = replies w2 s m2))
  ∧ (∀ path contents,
       type m1 = CreateNewFileRequest →
       electronIsDev w1 = true →
       showSaveDialog w1 = Some path → path ≠ "" →
       Persistence_read w2 path = Success contents →
       replies w2 s1 m2 = [OpenFileResponse_for m2 path contents; start])
  ∧ (electronIsDev w1 = true →
     type m1 = CreateNewFileRequest ∧ showSaveDialog w1 = None
     ∨ type m1 = OpenFileRequest ∧ showOpenDialog w1 = None →
     replies w2 s1 m2 = [start]).
Proof.
  intros Htype2 Hdev2 s1 start.
  pose proof (app_loaded_replies w2 s1 m2 Htype2) as Hreplies. cbv zeta in Hreplies.
  split; [|split].
  - intros serialized path contents Htype1 Hproject Hpath saved.
    assert (s1 = if NODE_ENV_development w1 then set_projectPath (Some saved) s else s) as Hs1.
    { unfold s1, receive. rewrite Htype1. unfold on_Save, bind, attempt; simpl.
      rewrite Hproject; simpl. rewrite Hpath; simpl.
      by destruct (NODE_ENV_development w1). }
    split.
    + intros Hnode Hne Hread. rewrite Hreplies, Hs1, Hnode. simpl.
      by rewrite Hdev2, (chosen_true _ Hne), Hread.
    + intros Hnode. rewrite Hnode in Hs1. by rewrite Hs1.
  - intros path contents Htype1 Hdev1 Hdialog Hne Hread.
    assert (projectPath s1 = Some path) as Hs1.
    { unfold s1, receive. rewrite Htype1. unfold on_CreateNewFileRequest, bind; simpl.
      rewrite Hdev1, Hdialog; simpl. by rewrite (chosen_true _ Hne). }
    by rewrite Hreplies, Hs1, Hdev2, (chosen_true _ Hne), Hread.
  - intros Hdev1 Hcancelled.
    assert (projectPath s1 = None) as Hs1.
    { unfold s1, receive.
      destruct Hcancelled as [[Htype1 Hdialog]|[Htype1 Hdialog]]; rewrite Htype1.
      - unfold on_CreateNewFileRequest, bind; simpl. by rewrite Hdev1, Hdialog.
      - unfold on_OpenFileRequest, bind; simpl. by rewrite Hdev1, Hdialog. }
    by rewrite Hreplies, Hs1.
Qed.

(** ** Exports *)

(** X6. The four export tags behave alike: the handler calls [writeFile]
    once with the [path] and [content] of the payload, an absent
    property being passed as [undefined]; it sends no reply and leaves
    the state alone.  An export without a payload throws before
    anything is written. *)
Theorem export_writes_file (w : World) (s : State) (message : ServerMessage) :
  type message = ExportHTML ∨ type message = ExportPDF
  ∨ type message = ExportPNG ∨ type message = ExportSketch →
  final (receive w (Some message) s) = s
  ∧ (∀ o,
       payload message = VObj o →
       effects (receive w (Some message) s)
         = [Send message;
            WriteFile (default VUndef (o !! "path")) (default VUndef (o !! "content"))]
       ∧ returned (receive w (Some message) s) = Some ())
  ∧ (payload message = VUndef ∨ payload message = VNull →
     effects (receive w (Some message) s) = [Send message]
     ∧ returned (receive w (Some message) s) = None).
Proof.
  intros Htype.
  assert (receive w (Some message) s = bind (send message) (λ _, on_Export message) s) as ->.
  { unfold receive. by destruct Htype as [-> | [-> | [-> | ->]]]. }
  unfold on_Export, bind, attempt, send, perform, ret, throw. split; [|split].
  - answers_in_turn; done.
  - intros o Ho. rewrite Ho. done.
  - intros [Hpayload|Hpayload]; by rewrite Hpayload.
Qed.

(** ** The connection store across handlers *)

Lemma previous_records_list (stored : value) (l : list value) :
  stored_list stored = Some l → previous_records stored = l.
Proof.
  unfold stored_list, previous_records.
  destruct (or_else stored (VArr [])); congruence.
Qed.

Lemma or_else_truthy (v d : value) : truthy v = true → or_else v d = v.
Proof. unfold or_else. by intros ->. Qed.

(** The run of a notification, by what [upsert] gives. *)
Lemma notification_run (w : World) (s : State) (message : ServerMessage) :
  type message = ConnectedPatternLibraryNotification →
  receive w (Some message) s =
    match upsert (connections s) (payload message) with
    | Some l =>
        {| effects := [Send message];
           final := set_connections (VArr l) s;
           returned := Some () |}
    | None => {| effects := [Send message]; final := s; returned := None |}
    end.
Proof.
  intros Htype. unfold receive. rewrite Htype.
  unfold on_ConnectedPatternLibraryNotification, bind, attempt, read_state; simpl.
  by destruct (upsert _ _).
Qed.

(** The run of an Update-pattern-library request, by what the lookup
    gives. *)
Lemma update_run (w : World) (s : State) (message : ServerMessage) :
  type message = UpdatePatternLibraryRequest →
  receive w (Some message) s =
    match find_connection (connections s) (library_id (library_of message)) with
    | Some (Some c) =>
        match get_prop c "path" with
        | Some (VStr path) =>
            {| effects :=
                 [Send message;
                  Send (ConnectPatternLibraryResponse_for message
                          (analysis_of (Analyzer_analyze w path (library_of message))))];
               final := s;
               returned := Some () |}
        | _ => {| effects := [Send message]; final := s; returned := None |}
        end
    | Some None => {| effects := [Send message]; final := s; returned := Some () |}
    | None => {| effects := [Send message]; final := s; returned := None |}
    end.
Proof.
  intros Htype. unfold receive. rewrite Htype.
  unfold on_UpdatePatternLibraryRequest, bind, attempt, read_state, library_of; simpl.
  destruct (find_connection _ _) as [[c|]|]; simpl; try done.
  by destruct (get_prop c "path") as [[]|].
Qed.

(** The run of a Check-library request whose filter throws. *)
Lemma check_run_throws (w : World) (s : State) (message : ServerMessage) :
  type message = CheckLibraryRequest →
  matching_connections (connections s) message = None →
  receive w (Some message) s = {| effects := [Send message]; final := s; returned := None |}.
Proof.
  intros Htype Hthrows. unfold receive. rewrite Htype.
  unfold on_CheckLibraryRequest, bind, attempt, read_state; simpl. by rewrite Hthrows.
Qed.

(** X7. A store that holds something other than a list, as an installation
    that stored a single record does: the notification handler takes
    the value as a list of one record and stores a list from then on,
    while the Update-pattern-library and Check-library handlers throw on
    it, answer nothing and leave it as it is. *)
Theorem store_not_a_list (w : World) (s : State) (message : ServerMessage) :
  truthy (connections s) = true →
  isArray (connections s) = false →
  (type message = UpdatePatternLibraryRequest ∨ type message = CheckLibraryRequest →
     receive w (Some message) s
     = {| effects := [Send message]; final := s; returned := None |})
  ∧ (type message = ConnectedPatternLibraryNotification →
     receive w (Some message) s
     = {| effects := [Send message];
          final := set_connections
                     (VArr (first_seen (filter Connection [connections s]
                                        ++ [payload message]))) s;
          returned := Some () |}).
Proof.
  intros Htruthy Harray. split.
  - intros [Htype|Htype].
    + rewrite (update_run w s message Htype). unfold find_connection.
      rewrite (or_else_truthy _ _ Htruthy). by destruct (connections s).
    + apply (check_run_throws w s message Htype). unfold matching_connections.
      rewrite (or_else_truthy _ _ Htruthy). by destruct (connections s).
  - intros Htype. rewrite (notification_run w s message Htype).
    assert (previous_records (connections s) = [connections s]) as Hprevious.
    { unfold previous_records. rewrite (or_else_truthy _ _ Htruthy).
      by destruct (connections s). }
    rewrite upsert_records; rewrite Hprevious; [done|].
    intros Hnull. apply list_elem_of_singleton in Hnull. by rewrite <- Hnull in Htruthy.
Qed.

(** X8. One [null] among the stored records stops the three handlers that
    read the store: each throws at the record ([typeof null] is
    ['object'], and [null] has no properties), answers nothing and
    leaves the store as it is, so no notification repairs it. *)
Theorem null_record_blocks_store (w : World) (s : State) (message : ServerMessage)
    (l : list value) :
  connections s = VArr l →
  VNull ∈ l →
  type message = UpdatePatternLibraryRequest
  ∨ type message = CheckLibraryRequest
  ∨ type message = ConnectedPatternLibraryNotification →
  receive w (Some message) s = {| effects := [Send message]; final := s; returned := None |}.
Proof.
  intros Hstore Hnull [Htype|[Htype|Htype]].
  - rewrite (update_run w s message Htype), find_connection_throws; [done|].
    intros l'. rewrite Hstore. by intros [= <-].
  - apply (check_run_throws w s message Htype). unfold matching_connections.
    rewrite Hstore. simpl. by apply (filter_throwing_throws _ l VNull).
  - rewrite (notification_run w s message Htype). unfold upsert. rewrite Hstore.
    change (previous_records (VArr l)) with l.
    by rewrite (filter_throwing_throws is_connection l VNull).
Qed.

Lemma filter_first_seen (P : value → Prop) `{∀ x, Decision (P x)} (l : list value) :
  filter P (first_seen l) = first_seen (filter P l).
Proof.
  induction l as [|x l IH]; [done|]. simpl.
  rewrite !filter_cons. destruct (decide (P x)) as [Hx|Hx]; simpl.
  - f_equal. rewrite <- IH, !filter_filter_and. apply filter_ext_in. naive_solver.
  - rewrite <- IH, filter_filter_and. apply filter_ext_in. intros y _.
    split; [naive_solver|]. intros Hy. split; [done|]. by intros ->.
Qed.

Lemma head_first_seen (l : list value) : head (first_seen l) = head l.
Proof. by destruct l. Qed.

(** X9. Over a stored value that is nothing or a list of records none of
    which is [null]: after a notification whose payload is a connection
    with the id of a library, an Update-pattern-library request for
    that library gets one reply, and the folder analyzed is that of the
    first connection the store already had for the library; only when
    it had none is it the folder just notified. *)
Theorem update_after_notification (w1 w2 : World) (s : State) (m1 m2 : ServerMessage)
    (l : list value) :
  type m1 = ConnectedPatternLibraryNotification →
  type m2 = UpdatePatternLibraryRequest →
  stored_list (connections s) = Some l →
  VNull ∉ l →
  Connection (payload m1) →
  get_prop (payload m1) "id" = Some (VStr (library_id (library_of m2))) →
  let s1 := final (receive w1 (Some m1) s) in
  let known :=
    filter (λ c, Connection c
                 ∧ get_prop c "id" = Some (VStr (library_id (library_of m2)))) l in
  replies w2 s1 m2 =
    [ConnectPatternLibraryResponse_for m2
       (analysis_of
          (Analyzer_analyze w2 (connection_path (default (payload m1) (head known)))
             (library_of m2)))].
Proof.
  intros Htype1 Htype2 Hl Hnull Hc Hid s1 known.
  assert (connections s1 = VArr (first_seen (filter Connection l ++ [payload m1]))) as Hs1.
  { unfold s1. rewrite (notification_run w1 s m1 Htype1).
    rewrite upsert_records; rewrite (previous_records_list _ _ Hl); done. }
  set (stored := first_seen (filter Connection l ++ [payload m1])) in *.
  assert (Forall Connection stored) as Hstored.
  { apply Forall_forall. intros x Hx.
    apply elem_of_first_seen, elem_of_app in Hx as [Hx|Hx].
    - by apply list_elem_of_filter in Hx as [? _].
    - by apply list_elem_of_singleton in Hx as ->. }
  assert (VNull ∉ stored) as Hnull'.
  { intros Hin. rewrite Forall_forall in Hstored. by specialize (Hstored _ Hin). }
  unfold replies. rewrite (update_run w2 s1 m2 Htype2), Hs1.
  rewrite (find_connection_list (VArr stored) stored _ eq_refl Hnull').
  unfold stored. rewrite filter_first_seen, head_first_seen.
  rewrite filter_app, filter_filter_and, (filter_cons _ (payload m1)), filter_nil.
  rewrite decide_True by done.
  assert (filter (λ c, (Connection c
                        ∧ get_prop c "id" = Some (VStr (library_id (library_of m2))))
                       ∧ Connection c) l = known) as ->.
  { apply filter_ext_in. naive_solver. }
  assert (Connection (default (payload m1) (head known))) as Hfound.
  { destruct known as [|c k] eqn:Hknown; [done|]. simpl.
    assert (c ∈ known) as Hin by (rewrite Hknown; apply elem_of_cons; by left).
    apply list_elem_of_filter in Hin. naive_solver. }
  destruct known as [|c k]; simpl in *.
  - by rewrite (Connection_path _ Hfound).
  - by rewrite (Connection_path _ Hfound).
Qed.

(** X10. Over a store that is a list of connections, no two of them
    equal: after a notification for a connection with the requested id,
    a Check-library request gets the replies it got before, followed or
    preceded by one more, for the notified connection, when the store
    did not have it yet; the replies come in the order in which the
    checks call back. *)
Theorem check_after_notification (w1 w2 : World) (s : State) (m1 m2 : ServerMessage)
    (l : list value) (requested : value) :
  type m1 = ConnectedPatternLibraryNotification →
  type m2 = CheckLibraryRequest →
  connections s = VArr l → Forall Connection l → NoDup l →
  Connection (payload m1) →
  get_prop (payload m2) "id" = Some requested →
  get_prop (payload m1) "id" = Some requested →
  let s1 := final (receive w1 (Some m1) s) in
  replies w2 s1 m2 ≡ₚ
    replies w2 s m2
    ++ if decide (payload m1 ∈ l) then []
       else [CheckLibraryResponse_for m2 (payload m1)
               (path_exists w2 (connection_path (payload m1)))].
Proof.
  intros Htype1 Htype2 Hstore Hall Hdup Hc Hid2 Hid1 s1.
  assert (VNull ∉ l) as Hnull.
  { intros Hin. rewrite Forall_forall in Hall. by specialize (Hall _ Hin). }
  assert (connections s1
          = VArr (if decide (payload m1 ∈ l) then l else l ++ [payload m1])) as Hs1.
  { unfold s1. rewrite (notification_run w1 s m1 Htype1), Hstore.
    rewrite upsert_records; change (previous_records (VArr l)) with l; [|done].
    rewrite filter_id by done. simpl. rewrite first_seen_snoc.
    by rewrite (first_seen_NoDup l Hdup). }
  rewrite (check_library_run_Permutation w2 s m2 l requested)
    by (try done; by rewrite Hstore).
  destruct (decide (payload m1 ∈ l)) as [Hin|Hin].
  - rewrite (check_library_run_Permutation w2 s1 m2 l requested)
      by (try done; by rewrite Hs1).
    by rewrite app_nil_r.
  - rewrite (check_library_run_Permutation w2 s1 m2 (l ++ [payload m1]) requested).
    + rewrite filter_app, fmap_app, (filter_cons _ (payload m1)), filter_nil.
      by rewrite decide_True by done.
    + done.
    + by rewrite Hs1.
    + apply Forall_app. split; [done|]. by constructor.
    + done.
Qed.

(** ** Asset-read and Create-script-bundle *)

(** X11. An Asset-read request with a file chosen reads the first selected
    path only and answers once with a data URI whose media type is never
    empty: it is what [MimeTypes.lookup] found, and
    [application/octet-stream] when it found nothing.  When reading the
    file fails the handler throws and no reply is sent. *)
Theorem asset_read_replies (w : World) (s : State) (message : ServerMessage)
    (path : string) (others : list string) :
  type message = AssetReadRequest →
  showOpenDialog w = Some (path :: others) →
  path ≠ "" →
  (∀ content,
     readFile w path = Some content →
     ∃ mimeType,
       mimeType ≠ ""
       ∧ (MimeTypes_lookup w path = Some mimeType
          ∨ mimeType = "application/octet-stream"
            ∧ (MimeTypes_lookup w path = None ∨ MimeTypes_lookup w path = Some ""))
       ∧ replies w s message =
           [{| type := AssetReadResponse;
               id := id message;
               payload := VStr ("data:" +:+ mimeType +:+ ";base64,"
                                +:+ toString_base64 w content) |}])
  ∧ (readFile w path = None →
     replies w s message = []
     ∧ returned (receive w (Some message) s) = None).
Proof.
  intros Htype Hdialog Hne. unfold replies, receive. rewrite Htype.
  pose proof (chosen_true _ Hne) as Hchosen.
  unfold on_AssetReadRequest. rewrite Hdialog. cbv zeta.
  change (head (path :: others)) with (Some path). rewrite Hchosen. split.
  - intros content Hread. unfold bind, sent, attempt; simpl. rewrite Hread; simpl.
    destruct (MimeTypes_lookup w path) as [found|] eqn:Hlookup.
    + destruct (String.eqb_spec found "") as [->|Hfound]; simpl.
      * exists "application/octet-stream". split; [done|]. split; [|done]. right. auto.
      * exists found. split; [done|]. split; [|done]. by left.
    + exists "application/octet-stream". split; [done|]. split; [|done]. right. auto.
  - intros Hread. unfold bind, sent, attempt; simpl. by rewrite Hread.
Qed.

(** X12. A Create-script-bundle request is answered after a successful build
    with the two bundles, [renderer] then [preview], each under the path
    [/<name>.js] with what the output file system holds there; after a
    failed build, or when either bundle cannot be read, nothing is
    sent. *)
Theorem script_bundle_replies (w : World) (s : State) (message : ServerMessage) :
  type message = CreateScriptBundleRequest →
  (∀ renderer preview,
     compiler_run_err w = false →
     outputFileSystem_readFileSync w "/renderer.js" = Some renderer →
     outputFileSystem_readFileSync w "/preview.js" = Some preview →
     replies w s message =
       [{| type := CreateScriptBundleResponse;
           id := id message;
           payload :=
             VArr [object [("name", VStr "renderer"); ("path", VStr "/renderer.js");
                           ("contents", renderer)];
                   object [("name", VStr "preview"); ("path", VStr "/preview.js");
                           ("contents", preview)]] |}])
  ∧ (compiler_run_err w = true
     ∨ outputFileSystem_readFileSync w "/renderer.js" = None
     ∨ outputFileSystem_readFileSync w "/preview.js" = None →
     replies w s message = []).
Proof.
  intros Htype. unfold replies, receive. rewrite Htype.
  unfold on_CreateScriptBundleRequest, bundle.
  change ("/" +:+ "renderer" +:+ ".js") with "/renderer.js".
  change ("/" +:+ "preview" +:+ ".js") with "/preview.js".
  unfold bind, sent, attempt. split.
  - intros renderer preview Herr Hrenderer Hpreview.
    rewrite Herr, Hrenderer, Hpreview. done.
  - intros [Herr|[Hrenderer|Hpreview]].
    + by rewrite Herr.
    + rewrite Hrenderer. by destruct (compiler_run_err w).
    + rewrite Hpreview. destruct (compiler_run_err w); [done|].
      by destruct (outputFileSystem_readFileSync w "/renderer.js").
Qed.

End RouterProperties.

Section RouterEffects.
Context `{model : Model}.

(** ** What a message can set off *)

(** X13. Besides sending, a run has an effect only under the tag that asks
    for it: the update check only for a Check-for-updates request with a
    window open, and always as a manual check; persisting only for a
    Create-new-file request or a Save; writing a file only for the four
    exports; the application menu only for Update-menu and the context
    menu only for a Context-element-menu request, each with the payload
    of the message. *)
Theorem effects_by_tag (w : World) (s : State) (message : ServerMessage) (e : Effect) :
  e ∈ effects (receive w (Some message) s) →
  match e with
  | Send _ => True
  | CheckForUpdates manual =>
      type message = CheckForUpdatesRequest ∧ manual = true ∧ win s = true
  | Persist _ _ => type message = CreateNewFileRequest ∨ type message = Save
  | WriteFile _ _ =>
      type message = ExportHTML ∨ type message = ExportPDF
      ∨ type message = ExportPNG ∨ type message = ExportSketch
  | CreateApplicationMenu payload0 =>
      type message = UpdateMenu ∧ payload0 = payload message
  | CreateElementContexMenu payload0 =>
      type message = ContextElementMenuRequest ∧ payload0 = payload message
  end.
Proof.
  unfold receive.
  destruct (type message) eqn:Htype;
    lazymatch goal with
    | _ : type message = CheckLibraryRequest |- _ =>
        unfold on_CheckLibraryRequest, bind, attempt, read_state, send, perform; simpl;
        destruct (matching_connections (connections s) message) as [matching|]; simpl;
        [ intros [->|He]%elem_of_cons; [done|];
          pose proof (check_each_effects w message matching s) as Hsends;
          rewrite Forall_forall in Hsends;
          by destruct (Hsends _ He) as (c & b & ->)
        | intros [->|He]%elem_of_cons; [done|by apply elem_of_nil in He] ]
    | _ =>
        unfold on_CheckForUpdatesRequest, on_AppLoaded, on_AssetReadRequest,
          on_ConnectPatternLibraryRequest, on_ConnectedPatternLibraryNotification,
          on_CreateNewFileRequest, on_CreateScriptBundleRequest, on_Export,
          on_OpenFileRequest, on_Save, on_UpdatePatternLibraryRequest,
          bind, attempt, read_state, write_state, send, perform, ret, throw;
        answers_in_turn;
        intros He;
        repeat (apply elem_of_cons in He as [He'|He];
                [simplify_eq; rewrite ?Htype; by auto 10|]);
        by apply elem_of_nil in He
    end.
Qed.

(** ** Connect-pattern-library *)

(** X14. A Connect-pattern-library request with a folder chosen is answered
    once, with the analysis of the first folder chosen for the library
    of the payload; with the dialog cancelled, nothing chosen or an
    empty path, nothing is sent.  Either way the handler leaves the
    state alone: the folder is not put into the connection store. *)
Theorem connect_pattern_library_replies (w : World) (s : State) (message : ServerMessage) :
  type message = ConnectPatternLibraryRequest →
  final (receive w (Some message) s) = s
  ∧ (∀ path others,
       showOpenDialog w = Some (path :: others) → path ≠ "" →
       replies w s message =
         [ConnectPatternLibraryResponse_for message
            (analysis_of (Analyzer_analyze w path (library_of message)))])
  ∧ (showOpenDialog w = None ∨ showOpenDialog w = Some []
     ∨ (∃ others, showOpenDialog w = Some ("" :: others)) →
     replies w s message = []).
Proof.
  intros Htype. unfold replies, receive. rewrite Htype.
  unfold on_ConnectPatternLibraryRequest, library_of.
  split; [|split].
  - unfold bind, send, perform, ret. answers_in_turn; done.
  - intros path others -> Hne. simpl. rewrite (chosen_true _ Hne). done.
  - intros [->|[->|[others ->]]]; done.
Qed.

End RouterEffects.

(** ** The preview relay, for every envelope *)

(** X15. Whatever the envelope, the parser and the values of the preview
    enumeration, the relay re-emits at most one message, and none when
    it logs an error.  A message it re-emits comes from a parsed message
    whose [type] is strictly equal to a preview tag: it has the
    translated tag, the parsed message's [id], and as payload the parsed
    message's or [undefined].  A parsed message whose [type] equals no
    preview tag is dropped without a log entry. *)
Theorem relay_at_most_one (JSON_parse : string → option value)
    (tags : PreviewMessageType → value) (envelope : string) :
  let outcome := on_client_message JSON_parse tags envelope in
  length (relayed outcome) ≤ 1
  ∧ (logged outcome = true → relayed outcome = [])
  ∧ (∀ m, m ∈ relayed outcome →
       ∃ message tag t,
         JSON_parse envelope = Some message
         ∧ get_prop message "type" = Some tag
         ∧ strict_eq tag (tags t) = true
         ∧ type m = translated t
         ∧ id m = default VUndef (get_prop message "id")
         ∧ (payload m = default VUndef (get_prop message "payload") ∨ payload m = VUndef))
  ∧ (∀ message tag,
       JSON_parse envelope = Some message →
       get_prop message "type" = Some tag →
       (∀ t, strict_eq tag (tags t) = false) →
       outcome = {| relayed := []; logged := false |}).
Proof.
  cbv zeta. unfold on_client_message, relay_switch.
  destruct (JSON_parse envelope) as [message|]; simpl.
  2:{ split; [lia|]. split; [done|]. split; [|done]. intros m Hm. by apply elem_of_nil in Hm. }
  destruct (get_prop message "type") as [tag|] eqn:Htype; simpl.
  2:{ split; [lia|]. split; [done|]. split.
      - intros m Hm. by apply elem_of_nil in Hm.
      - intros message' tag' [= <-] Htag. congruence. }
  split; [|split; [|split]].
  - repeat case_match; simpl; lia.
  - done.
  - intros m Hm.
    destruct (strict_eq tag (tags PreviewContentResponse)) eqn:H1;
      [|destruct (strict_eq tag (tags PreviewSketchExportResponse)) eqn:H2;
        [|destruct (strict_eq tag (tags PreviewSelectElement)) eqn:H3;
          [|destruct (strict_eq tag (tags PreviewUnselectElement)) eqn:H4;
            [|destruct (strict_eq tag (tags PreviewHighlightElement)) eqn:H5]]]];
      try (by apply elem_of_nil in Hm);
      apply list_elem_of_singleton in Hm as ->;
      exists message, tag;
      [ exists PreviewContentResponse | exists PreviewSketchExportResponse
      | exists PreviewSelectElement | exists PreviewUnselectElement
      | exists PreviewHighlightElement ];
      simpl; auto 10.
  - intros message' tag' [= <-] Htag Hnone.
    assert (tag' = tag) as -> by congruence. by rewrite !Hnone.
Qed.

(** * The style-guide viewer *)

(** ** Strings *)

Lemma string_length_app (a b : string) :
  String.length (a +:+ b) = String.length a + String.length b.
Proof. induction a as [|c a IH]; simpl; [done|by rewrite IH]. Qed.

Lemma substring_0_length (s : string) : String.substring 0 (String.length s) s = s.
Proof. induction s as [|c s IH]; simpl; [done|by rewrite IH]. Qed.

Lemma substring_app_suffix (a b : string) :
  String.substring (String.length a) (String.length b) (a +:+ b) = b.
Proof. induction a as [|c a IH]; simpl; [apply substring_0_length|done]. Qed.

Lemma substring_app_prefix (a b : string) :
  String.substring 0 (String.length a) (a +:+ b) = a.
Proof.
  induction a as [|c a IH]; simpl; [by destruct b|by rewrite IH].
Qed.

Lemma substring_split (n : nat) (s : string) :
  n ≤ String.length s →
  String.substring 0 n s +:+ String.substring n (String.length s - n) s = s.
Proof.
  revert s. induction n as [|n IH]; intros s Hn.
  - rewrite Nat.sub_0_r, substring_0_length. by destruct s.
  - destruct s as [|c s]; simpl in *; [lia|].
    change (String c (String.substring 0 n s
                      +:+ String.substring n (String.length s - n) s) = String c s).
    rewrite IH by lia. done.
Qed.


Section ViewerFolders.
Import Viewer ViewerVocabulary.

(** Induction on what is at a path, the entries of a directory
    included. *)
Lemma Entry_nested_ind (P : Entry → Prop) :
  P File →
  (∀ entries, Forall (λ e, P e.2) entries → P (Directory entries)) →
  P Unlisted →
  (∀ target, P target → P (Link target)) →
  P Vanished →
  ∀ e, P e.
Proof.
  intros Hfile Hdirectory Hunlisted Hlink Hvanished.
  fix IH 1. intros [|entries| |target|].
  - exact Hfile.
  - apply Hdirectory. induction entries as [|[name child] rest IHrest]; constructor.
    + apply IH.
    + exact IHrest.
  - exact Hunlisted.
  - apply Hlink, IH.
  - exact Hvanished.
Qed.

(** The loop over the entries of a directory, entry by entry. *)
Lemma createPatternsFromFolders_cons name child rest :
  createPatternsFromFolders (Directory ((name, child) :: rest))
  = match isDirectory child with
    | None => None
    | Some true =>
        children ← createPatternsFromFolders child;
        items ← createPatternsFromFolders (Directory rest);
        Some (Build_PatternFolder name children :: items)
    | Some false => createPatternsFromFolders (Directory rest)
    end.
Proof.
  simpl. destruct (isDirectory child) as [[]|]; [|done|done].
  destruct (createPatternsFromFolders child); [|done]. simpl.
  by destruct ((fix folders (entries : list (string * Entry)) := _) rest).
Qed.

(** Listing follows links down to a directory. *)
Lemma createPatternsFromFolders_listed parent entries :
  readdirSync parent = Some entries →
  createPatternsFromFolders parent = createPatternsFromFolders (Directory entries).
Proof.
  intros Hlisted. induction parent; simpl in *; try done; [by simplify_eq|auto].
Qed.

Lemma createPatternsFromFolders_not_listed parent :
  readdirSync parent = None → createPatternsFromFolders parent = None.
Proof. induction parent; simpl; auto; done. Qed.

(** The loop throws exactly when [lstatSync] throws on an entry or the
    call for an entry that is a directory throws. *)
Lemma createPatternsFromFolders_throws entries :
  createPatternsFromFolders (Directory entries) = None
  ↔ ∃ name e,
      (name, e) ∈ entries
      ∧ (isDirectory e = None
         ∨ isDirectory e = Some true ∧ createPatternsFromFolders e = None).
Proof.
  induction entries as [|[name child] rest IH].
  - split; [done|]. intros (name & e & Hin & _). by apply elem_of_nil in Hin.
  - rewrite createPatternsFromFolders_cons. split.
    + intros Hnone. destruct (isDirectory child) as [[]|] eqn:Hdirectory.
      * destruct (createPatternsFromFolders child) as [children|] eqn:Hchild.
        -- destruct (createPatternsFromFolders (Directory rest)) eqn:Hrest; [done|].
           destruct (proj1 IH eq_refl) as (name' & e & Hin & He).
           exists name', e. split; [by apply elem_of_cons; right|done].
        -- exists name, child. split; [by apply elem_of_cons; left|auto].
      * destruct (proj1 IH Hnone) as (name' & e & Hin & He).
        exists name', e. split; [by apply elem_of_cons; right|done].
      * exists name, child. split; [by apply elem_of_cons; left|auto].
    + intros (name' & e & Hin & He).
      apply elem_of_cons in Hin as [[= -> ->]|Hin].
      * destruct He as [->|[-> ->]]; done.
      * assert (createPatternsFromFolders (Directory rest) = None) as ->
          by (apply IH; eauto).
        destruct (isDirectory child) as [[]|]; [|done|done].
        by destruct (createPatternsFromFolders child).
Qed.

(** The walk throws exactly when something below stops it. *)
Lemma createPatternsFromFolders_blocked e :
  ∀ entries,
    e = Directory entries →
    createPatternsFromFolders e = None ↔ blocked entries.
Proof.
  induction e as [|entries' IH| |target _|] using Entry_nested_ind;
    intros entries Hentries; try done.
  injection Hentries as ->. rewrite Forall_forall in IH.
  rewrite createPatternsFromFolders_throws. split.
  - intros (name & e & Hin & [Hgone|[Hdirectory Hchild]]).
    + destruct e; try done. eapply blocked_entry; [done|by left].
    + destruct e as [|below| | |]; try done.
      * eapply blocked_below; [done|]. by apply (IH _ Hin below eq_refl).
      * eapply blocked_entry; [done|by right].
  - intros Hblocked.
    inversion Hblocked as [? name e Hin [->| ->]|? name below Hin Hbelow]; subst.
    + exists name, Vanished. auto.
    + exists name, Unlisted. auto.
    + exists name, (Directory below). split; [done|]. right. split; [done|].
      by apply (IH _ Hin below eq_refl).
Qed.

(** What the loop returns, entry by entry. *)
Lemma createPatternsFromFolders_items entries items :
  createPatternsFromFolders (Directory entries) = Some items →
  Forall2 item_of (directories entries) items.
Proof.
  unfold directories. revert items.
  induction entries as [|[name child] rest IH]; intros items.
  - intros [= <-]. constructor.
  - rewrite createPatternsFromFolders_cons, filter_cons. cbn [snd].
    destruct (isDirectory child) as [[]|] eqn:Hdirectory; [| |done].
    + rewrite decide_True by done.
      destruct (createPatternsFromFolders child) as [children|] eqn:Hchild; [|done].
      destruct (createPatternsFromFolders (Directory rest)) as [items'|]; [|done].
      intros [= <-]. constructor; [|by apply IH].
      destruct child as [|below| | |]; try done. by exists below, children.
    + rewrite decide_False by done. apply IH.
Qed.

(** X16. [createPatternsFromFolders] throws exactly when [parentPath]
    cannot be listed or, below it and through entries that are
    directories themselves, there is an entry [lstatSync] throws on or
    a directory [readdirSync] throws on.  When it returns, its items
    are, in the order [readdirSync] lists them, the entries that are
    directories themselves, each under its name and with the items of
    that directory: files and symbolic links are left out at every
    level. *)
Theorem patterns_mirror_directories (parent : Entry) :
  (createPatternsFromFolders parent = None
   ↔ readdirSync parent = None
     ∨ ∃ entries, readdirSync parent = Some entries ∧ blocked entries)
  ∧ (∀ entries items,
       readdirSync parent = Some entries →
       createPatternsFromFolders parent = Some items →
       Forall2
         (λ e item,
            ∃ below children,
              e.2 = Directory below
              ∧ createPatternsFromFolders (Directory below) = Some children
              ∧ item = Build_PatternFolder e.1 children)
         (filter (λ e, isDirectory e.2 = Some true) entries) items).
Proof.
  split.
  - destruct (readdirSync parent) as [entries|] eqn:Hlisted.
    + rewrite (createPatternsFromFolders_listed _ _ Hlisted).
      rewrite (createPatternsFromFolders_blocked _ entries eq_refl). split.
      * intros Hblocked. right. by exists entries.
      * intros [?|(entries' & [= <-] & Hblocked)]; done.
    + rewrite (createPatternsFromFolders_not_listed _ Hlisted). split; auto.
  - intros entries items Hlisted Hitems.
    rewrite (createPatternsFromFolders_listed _ _ Hlisted) in Hitems.
    by apply createPatternsFromFolders_items.
Qed.

Lemma Forall2_elem_l {A B} (P : A → B → Prop) l k x :
  Forall2 P l k → x ∈ l → ∃ y, y ∈ k ∧ P x y.
Proof.
  intros HP [i Hi]%list_elem_of_lookup.
  destruct (Forall2_lookup_l _ _ _ _ _ HP Hi) as (y & Hy & Hxy).
  exists y. split; [by eapply list_elem_of_lookup_2|done].
Qed.

Lemma Forall2_elem_r {A B} (P : A → B → Prop) l k y :
  Forall2 P l k → y ∈ k → ∃ x, x ∈ l ∧ P x y.
Proof.
  intros HP [i Hi]%list_elem_of_lookup.
  destruct (Forall2_lookup_r _ _ _ _ _ HP Hi) as (x & Hx & Hxy).
  exists x. split; [by eapply list_elem_of_lookup_2|done].
Qed.

Lemma shown_reaches e :
  ∀ entries items path,
    e = Directory entries →
    createPatternsFromFolders e = Some items →
    shown items path ↔ reaches entries path.
Proof.
  induction e as [|entries' IH| |target _|] using Entry_nested_ind;
    intros entries items path Hentries Hitems; try done.
  injection Hentries as ->.
  apply createPatternsFromFolders_items in Hitems.
  rewrite Forall_forall in IH.
  revert items Hitems. induction path as [|name path IHpath]; intros items Hitems.
  { split; inversion 1. }
  split.
  - intros Hshown.
    inversion Hshown as [? name' children Hin|? name' children rest Hin Hrest]; subst.
    + destruct (Forall2_elem_r _ _ _ _ Hitems Hin) as (e & He & below & children' & Hdir & _ & Heq).
      simplify_eq. apply list_elem_of_filter in He as [_ He].
      destruct e as [name child]; simpl in *; subst. by eapply reaches_entry.
    + destruct (Forall2_elem_r _ _ _ _ Hitems Hin) as (e & He & below & children' & Hdir & Hbelow & Heq).
      simplify_eq. apply list_elem_of_filter in He as [_ He].
      destruct e as [name child]; simpl in *; subst.
      eapply reaches_below; [done|].
      eapply (IH _ He); [done|done|]. done.
  - intros Hreaches.
    inversion Hreaches as [? name' below Hin|? name' below rest Hin Hrest]; subst.
    + assert ((name, Directory below) ∈ directories entries) as Hin'
        by by apply list_elem_of_filter.
      destruct (Forall2_elem_l _ _ _ _ Hitems Hin')
        as (item & Hitem & below' & children & Hdir & Hbelow & ->).
      by eapply shown_item.
    + assert ((name, Directory below) ∈ directories entries) as Hin'
        by by apply list_elem_of_filter.
      destruct (Forall2_elem_l _ _ _ _ Hitems Hin')
        as (item & Hitem & below' & children & Hdir & Hbelow & ->).
      simpl in *. simplify_eq.
      eapply shown_below; [done|].
      eapply (IH _ Hin); [done|done|]. done.
Qed.

(** X17. A path of names leads to an item of the pattern tree exactly
    when, below [parentPath], it leads through entries that are
    directories themselves to such an entry: what is behind a symbolic
    link or a file is never shown, and every directory that can be
    reached that way is. *)
Theorem patterns_show_reachable_directories (parent : Entry)
    (entries : list (string * Entry)) (items : list PatternFolder)
    (path : list string) :
  readdirSync parent = Some entries →
  createPatternsFromFolders parent = Some items →
  shown items path ↔ reaches entries path.
Proof.
  intros Hlisted Hitems.
  rewrite (createPatternsFromFolders_listed _ _ Hlisted) in Hitems.
  by eapply shown_reaches.
Qed.

(** *** Names ending in [.json] *)

Lemma matches_json_stem (stem : string) : matches_json (stem +:+ ".json") = true.
Proof.
  unfold matches_json. rewrite string_length_app.
  change (String.length ".json") with 5.
  replace (String.length stem + 5 - 5) with (String.length stem) by lia.
  pose proof (substring_app_suffix stem ".json") as Hsuffix.
  change (String.length ".json") with 5 in Hsuffix. rewrite Hsuffix.
  apply andb_true_iff. split; [apply Nat.leb_le; lia|done].
Qed.

Lemma replace_json_stem (stem : string) : replace_json (stem +:+ ".json") = stem.
Proof.
  unfold replace_json. rewrite matches_json_stem, string_length_app.
  change (String.length ".json") with 5.
  replace (String.length stem + 5 - 5) with (String.length stem) by lia.
  apply substring_app_prefix.
Qed.

Lemma matches_json_suffix (name : string) :
  matches_json name = true ↔ ∃ stem, name = stem +:+ ".json".
Proof.
  split.
  - unfold matches_json. intros [Hlength Hsuffix]%andb_true_iff.
    apply Nat.leb_le in Hlength. apply String.eqb_eq in Hsuffix.
    exists (String.substring 0 (String.length name - 5) name).
    pose proof (substring_split (String.length name - 5) name) as Hsplit.
    replace (String.length name - (String.length name - 5)) with 5 in Hsplit by lia.
    rewrite Hsuffix in Hsplit. symmetry. apply Hsplit. lia.
  - intros [stem ->]. apply matches_json_stem.
Qed.

(** *** Projects *)

(** How a page relates to the name it comes from. *)
Lemma pages_of_directory below :
  ∃ children,
    pages (Directory below) = Some children
    ∧ Forall2 (λ name page, page_label page = "Page" ∧ page_value page +:+ ".json" = name)
        (filter (λ name, matches_json name = true) below.*1) children.
Proof.
  unfold pages. simpl. eexists. split; [done|].
  apply Forall2_fmap_r, Forall_Forall2_diag, Forall_forall.
  intros name [Hjson _]%list_elem_of_filter. split; [done|].
  apply matches_json_suffix in Hjson as [stem ->]. by rewrite replace_json_stem.
Qed.

(** The loop over the entries of the projects folder throws exactly when
    one of them stops it; otherwise it returns the projects. *)
Lemma projects_run listed :
  match projects listed with
  | None => ∃ name e, (name, e) ∈ listed ∧ stops e
  | Some items =>
      (∀ name e, (name, e) ∈ listed → ¬ stops e)
      ∧ Forall2 project_of (filter (λ e, isDirectory e.2 = Some true) listed) items
  end.
Proof.
  induction listed as [|[name child] rest IH]; simpl.
  - split; [|constructor]. intros name e Hin. by apply elem_of_nil in Hin.
  - rewrite filter_cons. simpl.
    destruct child as [|below| |target|]; simpl.
    + destruct (projects rest) as [items|].
      * destruct IH as [Hnone Hitems]. split; [|done].
        intros name' e [[= -> ->]|Hin]%elem_of_cons; [by intros [|]|by eapply Hnone].
      * destruct IH as (name' & e & Hin & He).
        exists name', e. split; [by apply elem_of_cons; right|done].
    + destruct (pages_of_directory below) as (children & Hpages & Hchildren).
      unfold pages in Hpages. simpl in Hpages. injection Hpages as <-.
      destruct (projects rest) as [items|].
      * destruct IH as [Hnone Hitems]. split.
        -- intros name' e [[= -> ->]|Hin]%elem_of_cons; [by intros [|]|by eapply Hnone].
        -- constructor; [|done]. split; [done|]. split; [done|]. by exists below.
      * destruct IH as (name' & e & Hin & He).
        exists name', e. split; [by apply elem_of_cons; right|done].
    + exists name, Unlisted. split; [by apply elem_of_cons; left|by right].
    + destruct (projects rest) as [items|].
      * destruct IH as [Hnone Hitems]. split; [|done].
        intros name' e [[= -> ->]|Hin]%elem_of_cons; [by intros [|]|by eapply Hnone].
      * destruct IH as (name' & e & Hin & He).
        exists name', e. split; [by apply elem_of_cons; right|done].
    + exists name, Vanished. split; [by apply elem_of_cons; left|by left].
Qed.

(** X18. [createProjectsFromFolders] throws exactly when
    [modelPath/projects] cannot be listed or holds an entry [lstatSync]
    throws on or a directory [readdirSync] throws on.  When it returns,
    there is one item labelled [Project] for each entry of
    [modelPath/projects] that is a directory itself, in order and under
    the entry's name; its children are labelled [Page], one for each
    name in that directory that ends in [.json], whatever is behind the
    name, and a page's value followed by [.json] is that name. *)
Theorem projects_from_folders (model : Entry) :
  let listing :=
    entries ← readdirSync model;
    projectsPath ← at_name "projects" entries;
    readdirSync projectsPath in
  (createProjectsFromFolders model = None
   ↔ listing = None
     ∨ ∃ listed name e,
         listing = Some listed ∧ (name, e) ∈ listed ∧ (e = Vanished ∨ e = Unlisted))
  ∧ (∀ listed items,
       listing = Some listed →
       createProjectsFromFolders model = Some items →
       Forall2
         (λ e item,
            project_label item = "Project"
            ∧ project_value item = e.1
            ∧ ∃ below,
                e.2 = Directory below
                ∧ Forall2
                    (λ name page,
                       page_label page = "Page"
                       ∧ page_value page +:+ ".json" = name)
                    (filter (λ name, matches_json name = true) below.*1)
                    (project_children item))
         (filter (λ e, isDirectory e.2 = Some true) listed) items)
  ∧ (∀ name, matches_json name = true ↔ ∃ stem, name = stem +:+ ".json").
Proof.
  cbv zeta. unfold createProjectsFromFolders.
  split; [|split].
  - destruct (readdirSync model) as [entries|]; simpl; [|split; auto].
    destruct (at_name "projects" entries) as [projectsPath|]; simpl; [|split; auto].
    destruct (readdirSync projectsPath) as [listed|]; simpl; [|split; auto].
    pose proof (projects_run listed) as Hrun.
    destruct (projects listed) as [items|].
    + destruct Hrun as [Hnone _]. split; [done|].
      intros [?|(listed' & name & e & [= <-] & Hin & He)]; [done|].
      by destruct (Hnone name e Hin).
    + destruct Hrun as (name & e & Hin & He). split; [|done].
      intros _. right. by exists listed, name, e.
  - intros listed items Hlisted.
    destruct (readdirSync model) as [entries|]; simpl in *; [|done].
    destruct (at_name "projects" entries) as [projectsPath|]; simpl in *; [|done].
    rewrite Hlisted. intros Hitems.
    pose proof (projects_run listed) as Hrun. rewrite Hitems in Hrun.
    by destruct Hrun as [_ Hprojects].
  - apply matches_json_suffix.
Qed.

End ViewerFolders.

Section ViewerItemsProperties.
Import ViewerItems ViewerItemsVocabulary.

(** ** The file name of a pattern *)

(** What is left of a string from a position on. *)
Lemma substring_from_0 (s : string) :
  String.substring 0 (String.length s - 0) s = s.
Proof. rewrite Nat.sub_0_r. apply substring_0_length. Qed.

Lemma substring_0_0 (s : string) : String.substring 0 0 s = "".
Proof. by destruct s. Qed.

Lemma is_slash_eq (c : Ascii.ascii) : is_slash c = true → String c "" = "/".
Proof.
  unfold is_slash. intros Hc%Nat.eqb_eq.
  rewrite <-(Ascii.ascii_nat_embedding c), Hc. done.
Qed.

Lemma matched_unfold (c : Ascii.ascii) (rest : string) :
  matched (String c rest)
  = if starts_with_terminator (String c rest) then 0
    else match matched rest with
         | 0 => if is_slash c then 1 else 0
         | S n => S (S n)
         end.
Proof. done. Qed.

Lemma matched_le (s : string) : matched s ≤ String.length s.
Proof.
  induction s as [|c rest IH]; [done|].
  rewrite matched_unfold. simpl String.length.
  repeat case_match; lia.
Qed.

Lemma matched_file_name (s : string) : matched (file_name s) = 0.
Proof.
  unfold file_name. induction s as [|c rest IH]; [done|].
  rewrite matched_unfold.
  destruct (starts_with_terminator (String c rest)) eqn:Hterminator.
  { rewrite substring_from_0, matched_unfold. by rewrite Hterminator. }
  destruct (matched rest) as [|n] eqn:Hrest.
  - destruct (is_slash c) eqn:Hslash.
    + simpl. rewrite Nat.sub_0_r, substring_0_length. done.
    + rewrite substring_from_0, matched_unfold, Hterminator, Hrest, Hslash. done.
  - exact IH.
Qed.

Lemma matched_directory (s : string) :
  matched s = 0 ∨ ∃ d, String.substring 0 (matched s) s = d +:+ "/".
Proof.
  induction s as [|c rest IH]; [by left|].
  rewrite matched_unfold.
  destruct (starts_with_terminator (String c rest)); [by left|].
  destruct (matched rest) as [|n] eqn:Hrest.
  - destruct (is_slash c) eqn:Hslash; [|by left].
    right. exists "". simpl. rewrite substring_0_0. by apply is_slash_eq.
  - right. destruct IH as [|[d Hd]]; [done|].
    exists (String c d). simpl in *. by rewrite Hd.
Qed.

Lemma matched_no_slash (s : string) : has_slash s = false → matched s = 0.
Proof.
  induction s as [|c rest IH]; [done|].
  simpl has_slash. intros [Hc Hrest]%orb_false_iff.
  rewrite matched_unfold, (IH Hrest), Hc. by destruct (starts_with_terminator _).
Qed.

Lemma single_line_unfold (c : Ascii.ascii) (rest : string) :
  single_line (String c rest)
  = negb (starts_with_terminator (String c rest)) && single_line rest.
Proof. done. Qed.

Lemma single_line_unmatched (s : string) :
  single_line s = true → matched s = 0 → has_slash s = false.
Proof.
  induction s as [|c rest IH]; [done|].
  rewrite single_line_unfold. intros [Hterminator Hrest]%andb_true_iff.
  apply negb_true_iff in Hterminator.
  rewrite matched_unfold, Hterminator. simpl has_slash.
  destruct (matched rest) as [|n]; [|done].
  destruct (is_slash c); [done|]. intros _. by apply IH.
Qed.

Lemma single_line_file_name (s : string) :
  single_line s = true → has_slash (file_name s) = false.
Proof.
  unfold file_name. induction s as [|c rest IH]; [done|].
  intros Hline. pose proof Hline as Hline'. rewrite single_line_unfold in Hline.
  apply andb_true_iff in Hline as [Hterminator Hrest].
  apply negb_true_iff in Hterminator.
  rewrite matched_unfold, Hterminator.
  destruct (matched rest) as [|n] eqn:Hmatched.
  - destruct (is_slash c) eqn:Hslash.
    + simpl. rewrite Nat.sub_0_r, substring_0_length.
      by apply single_line_unmatched.
    + rewrite substring_from_0. apply single_line_unmatched; [done|].
      by rewrite matched_unfold, Hterminator, Hmatched, Hslash.
  - by apply IH.
Qed.

(** X19. The [value] of a pattern's item is [patternSrc] without a
    leading part that is empty or ends in [/]: taking the file name
    twice gives what taking it once gives, a [patternSrc] without [/] is
    its own file name, and the file name of a [patternSrc] of one line
    holds no [/]. *)
Theorem file_name_is_basename (patternSrc : string) :
  (∃ directory,
      patternSrc = directory +:+ file_name patternSrc
      ∧ (directory = "" ∨ ∃ d, directory = d +:+ "/"))
  ∧ file_name (file_name patternSrc) = file_name patternSrc
  ∧ (has_slash patternSrc = false → file_name patternSrc = patternSrc)
  ∧ (single_line patternSrc = true → has_slash (file_name patternSrc) = false).
Proof.
  split; [|split; [|split]].
  - exists (String.substring 0 (matched patternSrc) patternSrc). split.
    + unfold file_name. symmetry. apply substring_split, matched_le.
    + destruct (matched_directory patternSrc) as [->|Hd]; [|by right].
      left. apply substring_0_0.
  - unfold file_name at 1 3. rewrite matched_file_name.
    apply substring_from_0.
  - intros Hslash. unfold file_name. rewrite (matched_no_slash _ Hslash).
    apply substring_from_0.
  - apply single_line_file_name.
Qed.

(** ** List items *)

Section ListItems.
Context {number : Type}.
Variable is_zero : number → bool.
Variable characters : string → list string.

Implicit Types (v value model : @Json number) (item : @ListItem number).

(** Induction on a value, the elements of an array and the properties of
    an object included. *)
Lemma Json_nested_ind (P : @Json number → Prop) :
  P JNull → (∀ b, P (JBool b)) → (∀ n, P (JNumber n)) → (∀ s, P (JString s)) →
  (∀ elements, Forall P elements → P (JArray elements)) →
  (∀ entries, Forall (λ e, P e.2) entries → P (JObject entries)) →
  ∀ v, P v.
Proof.
  intros Hnull Hbool Hnumber Hstring Harray Hobject.
  fix IH 1. intros [|b|n|s|elements|entries].
  - exact Hnull.
  - apply Hbool.
  - apply Hnumber.
  - apply Hstring.
  - apply Harray. induction elements as [|v rest IHrest]; constructor; [apply IH|exact IHrest].
  - apply Hobject. induction entries as [|[name v] rest IHrest]; constructor;
      [apply IH|exact IHrest].
Qed.

(** What a loop that pushes one item per element leaves in [items]. *)
Lemma forEach_lookup {A B} (f : nat → A → option B) (index : nat) (l : list A)
    (items : list B) :
  forEach f index l = Some items →
  length items = length l
  ∧ ∀ i x, l !! i = Some x → f (index + i) x = items !! i.
Proof.
  revert index items. induction l as [|x rest IH]; intros index items; simpl.
  - intros [= <-]. split; [done|]. intros i y Hi. by rewrite lookup_nil in Hi.
  - destruct (f index x) as [item|] eqn:Hitem; [|done].
    destruct (forEach f (S index) rest) as [items'|] eqn:Hrest; [|done].
    intros [= <-]. destruct (IH _ _ Hrest) as [Hlength Hlookup].
    split; [simpl; by rewrite Hlength|].
    intros [|i] y Hi; simpl in *.
    + injection Hi as <-. by rewrite Nat.add_0_r.
    + rewrite <-(Hlookup i y Hi). f_equal. lia.
Qed.

Lemma forEach_leaves {A} (f : nat → A → option (@ListItem number))
    (flat : A → list (@Json number))
    (index : nat) (l : list A) :
  Forall (λ x, ∀ i, ∃ item, f i x = Some item ∧ leaves item = flat x) l →
  ∃ items, forEach f index l = Some items ∧ flat_map leaves items = flat_map flat l.
Proof.
  intros Hall. revert index. induction Hall as [|x rest Hx _ IH]; intros index; simpl.
  - by exists [].
  - destruct (Hx index) as (item & -> & Hitem).
    destruct (IH (S index)) as (items & -> & Hitems).
    eexists. split; [done|]. simpl. by rewrite Hitem, Hitems.
Qed.

(** X20. On a value in which no object is marked as a pattern,
    [createListItemFromProperty] does not throw, and the items without
    children of what it returns hold, in order, the values of the value
    that are not arrays or objects: each of them once, none changed. *)
Theorem plain_values_are_listed (key : Key) value :
  pattern_free value = true →
  ∃ item,
    createListItemFromProperty is_zero characters key value = Some item
    ∧ leaves item = primitives value.
Proof.
  intros Hfree. revert Hfree key.
  induction value as [|b|n|s|elements IH|entries IH] using Json_nested_ind;
    intros Hfree key; try (by eexists).
  - simpl in Hfree. rewrite forallb_forall in Hfree.
    destruct (forEach_leaves
                (λ index child,
                   createListItemFromProperty is_zero characters
                     (KString ("Child " +:+ pretty (index + 1))) child)
                primitives 0 elements) as (items & Hitems & Hleaves).
    { rewrite Forall_forall in IH. apply Forall_forall. intros v Hv i.
      apply IH; [done|]. apply Hfree. by apply list_elem_of_In. }
    simpl. rewrite Hitems. eexists. split; [done|]. done.
  - simpl in Hfree. apply andb_true_iff in Hfree as [Hpattern Hfree].
    apply negb_true_iff in Hpattern. rewrite forallb_forall in Hfree.
    destruct (forEach_leaves
                (λ (_ : nat) '(childKey, childValue),
                   createListItemFromProperty is_zero characters (KString childKey) childValue)
                (λ e, primitives e.2) 0 entries) as (items & Hitems & Hleaves).
    { rewrite Forall_forall in IH. apply Forall_forall. intros [name v] Hv i.
      apply (IH _ Hv). apply (Hfree (name, v)). by apply list_elem_of_In. }
    simpl. rewrite Hpattern, Hitems. eexists. split; [done|]. done.
Qed.

Lemma with_property_property {A} (entries : list (string * @Json number)) (name : string)
    (found : @Json number → A) (missing : A) :
  with_property entries name found missing
  = match property entries name with
    | Some v => found v
    | None => missing
    end.
Proof.
  unfold property, with_property.
  induction entries as [|[name' v] rest IH]; [done|].
  by destruct (decide (name' = name)).
Qed.

Lemma pattern_item_property key entries :
  pattern_item is_zero characters (createListItemFromProperty is_zero characters) key entries
  = fromProperties ←
      match property entries "properties" with
      | Some properties =>
          if truthy is_zero properties
          then items_of_entries characters (createListItemFromProperty is_zero characters)
                 properties
          else Some []
      | None => Some []
      end;
    fromChildren ←
      match property entries "children" with
      | Some (JArray elements) =>
          forEach (λ index v,
                     createListItemFromProperty is_zero characters (KNumber (index + 1)) v)
                  0 elements
      | Some children => if truthy is_zero children then None else Some []
      | None => Some []
      end;
    match property entries "patternSrc" with
    | Some (JString src) =>
        Some (Build_ListItem key (OfString (file_name src))
                (Some (fromProperties ++ fromChildren)))
    | _ => None
    end.
Proof.
  unfold pattern_item. rewrite !with_property_property.
  destruct (match property entries "properties" with Some _ => _ | None => _ end)
    as [fromProperties|]; simpl; [|done].
  destruct (match property entries "children" with Some _ => _ | None => _ end)
    as [fromChildren|]; simpl; [|done].
  rewrite with_property_property.
  by destruct (property entries "patternSrc") as [[]|].
Qed.

(** X21. [createListItemFromPattern] returns only on a model that is an
    object with a string as [patternSrc] and with [children] that are
    missing, falsy or an array; on every other model it throws.  The
    item it returns has the key as label, the file name of [patternSrc]
    as value, and a list of children. *)
Theorem pattern_item_needs_patternSrc (key : Key) model item :
  createListItemFromPattern is_zero characters key model = Some item →
  ∃ entries src items,
    model = JObject entries
    ∧ property entries "patternSrc" = Some (JString src)
    ∧ match property entries "children" with
      | None | Some (JArray _) => True
      | Some children => truthy is_zero children = false
      end
    ∧ item = Build_ListItem key (OfString (file_name src)) (Some items).
Proof.
  destruct model as [| | | | |entries]; simpl; try done.
  rewrite pattern_item_property. intros Hitem.
  apply bind_Some in Hitem as (fromProperties & _ & Hitem).
  apply bind_Some in Hitem as (fromChildren & Hchildren & Hitem).
  destruct (property entries "patternSrc") as [[| | |src| |]|] eqn:Hsrc; try done.
  exists entries, src, (fromProperties ++ fromChildren).
  split; [done|]. split; [done|]. split; [|by simplify_eq].
  destruct (property entries "children") as [[]|]; try done;
    by destruct (truthy _ _).
Qed.

(** X22. The children of a pattern's item are the items of its
    properties, in the order of [Object.entries] and each under the
    property's name, followed by the items of its children, the child at
    position [i] under the number [i + 1]. *)
Theorem pattern_item_lists_properties_then_children (key : Key)
    (entries properties : list (string * @Json number)) (children : list (@Json number))
    item :
  property entries "properties" = Some (JObject properties) →
  property entries "children" = Some (JArray children) →
  createListItemFromPattern is_zero characters key (JObject entries) = Some item →
  ∃ held fromProperties fromChildren,
    item = Build_ListItem key held (Some (fromProperties ++ fromChildren))
    ∧ length fromProperties = length properties
    ∧ (∀ i name v,
         properties !! i = Some (name, v) →
         createListItemFromProperty is_zero characters (KString name) v
         = fromProperties !! i)
    ∧ length fromChildren = length children
    ∧ (∀ i v,
         children !! i = Some v →
         createListItemFromProperty is_zero characters (KNumber (i + 1)) v
         = fromChildren !! i).
Proof.
  intros Hproperties Hchildren. simpl.
  rewrite pattern_item_property, Hproperties, Hchildren. simpl.
  intros Hitem.
  apply bind_Some in Hitem as (fromProperties & HfromProperties & Hitem).
  apply bind_Some in Hitem as (fromChildren & HfromChildren & Hitem).
  destruct (property entries "patternSrc") as [[| | |src| |]|]; try done.
  apply forEach_lookup in HfromProperties as [Hlength1 Hlookup1].
  apply forEach_lookup in HfromChildren as [Hlength2 Hlookup2].
  exists (OfString (file_name src)), fromProperties, fromChildren.
  split; [by simplify_eq|]. split; [done|]. split; [|split; [done|]].
  - intros i name v Hi. by rewrite <-(Hlookup1 i (name, v) Hi).
  - intros i v Hi. by rewrite <-(Hlookup2 i v Hi).
Qed.

End ListItems.

End ViewerItemsProperties.

(** * The asset item *)

Section AssetItemProperties.
Import AssetItem AssetItemVocabulary.

Section Render.
Context {Handler : Type}.
Implicit Types props : @AssetItemProps Handler.

Lemma length_eqb_0 (s : string) : (String.length s =? 0) = String.eqb s "".
Proof. by destruct s. Qed.

(** X23. Whatever the props, [AssetItem] renders one Choose button,
    wired to [onChooseClick]: inside the label and followed by the Clear
    button for a file input, outside the label and alone for a URL
    input.  The Clear button is wired to [onClearClick] and disabled
    exactly when [imageSrc] is empty. *)
Theorem asset_item_buttons props :
  elements_of "StyledButton" (AssetItem props)
  = match inputType props with
    | File => [ChooseButton props; ClearButton props]
    | Url => [ChooseButton props]
    end
  ∧ elements_within "label" "StyledButton" (AssetItem props)
    = match inputType props with
      | File => [ChooseButton props; ClearButton props]
      | Url => []
      end
  ∧ attribute "onClick" (ChooseButton props) = Some (optional_handler (onChooseClick props))
  ∧ attribute "onClick" (ClearButton props) = Some (optional_handler (onClearClick props))
  ∧ (attribute "disabled" (ClearButton props) = Some (ABool true) ↔ imageSrc props = "").
Proof.
  split; [|split; [|split; [|split]]].
  - unfold AssetItem. destruct (inputType props); simpl;
      destruct (String.eqb (imageSrc props) ""); simpl;
      destruct (description props) as [d|]; simpl; try done;
      by destruct (String.eqb d "").
  - unfold elements_within, AssetItem. destruct (inputType props); simpl.
    all: destruct (String.eqb (imageSrc props) ""); simpl.
    all: destruct (description props) as [d|]; simpl; try done.
    all: by destruct (String.eqb d "").
  - done.
  - done.
  - simpl. rewrite length_eqb_0. split.
    + intros [= Hempty]. by apply String.eqb_eq.
    + intros ->. done.
Qed.

(** X24. [AssetItem] renders the text input exactly for a URL input,
    with [inputValue] as its value; the image exactly when [imageSrc] is
    not empty, with [imageSrc] as its source; the description exactly
    when [description] is given and not empty; and the label always. *)
Theorem asset_item_parts props :
  elements_of "StyledInput" (AssetItem props)
  = match inputType props with
    | Url =>
        [Element "StyledInput"
           [("onBlur", optional_handler (onInputBlur props));
            ("onChange", optional_handler (onInputChange props));
            ("type", AString "textarea");
            ("value", optional_string (inputValue props));
            ("placeholder", optional_string (placeholder props))]
           []]
    | File => []
    end
  ∧ elements_of "StyledImage" (AssetItem props)
    = (if decide (imageSrc props = "") then []
       else [Element "StyledImage" [("src", AString (imageSrc props))] []])
  ∧ elements_of "PropertyDescription" (AssetItem props)
    = match description props with
      | Some d =>
          if decide (d = "") then []
          else [Element "PropertyDescription" [("description", AString d)] []]
      | None => []
      end
  ∧ elements_of "PropertyLabel" (AssetItem props)
    = [Element "PropertyLabel" [("label", AString (label props))] []].
Proof.
  assert (∀ s : string, String.eqb s "" = bool_decide (s = "")) as Heqb.
  { intros s. destruct (String.eqb_spec s "");
      [by rewrite bool_decide_true|by rewrite bool_decide_false]. }
  unfold AssetItem. rewrite Heqb.
  split; [|split; [|split]].
  - destruct (inputType props); simpl;
      case_bool_decide; simpl;
      destruct (description props) as [d|]; simpl; try done;
      rewrite Heqb; by case_bool_decide.
  - destruct (inputType props); simpl;
      case_bool_decide; simpl; case_decide; try done;
      destruct (description props) as [d|]; simpl; try done;
      rewrite Heqb; by case_bool_decide.
  - destruct (inputType props); simpl;
      case_bool_decide; simpl;
      destruct (description props) as [d|]; simpl; try done;
      rewrite Heqb; case_bool_decide; case_decide; done.
  - destruct (inputType props); simpl;
      case_bool_decide; simpl;
      destruct (description props) as [d|]; simpl; try done;
      rewrite Heqb; by case_bool_decide.
Qed.

End Render.
End AssetItemProperties.

(** * The further properties, exercised *)

Section ExercisedFurther.
#[local] Existing Instance Scenario.model.

(** X3 on an App-loaded with a remembered project that cannot be read:
    only [StartApp] is sent. *)
Lemma app_loaded_starts_app_witness :
  replies Scenario.world Scenario.state (Scenario.request AppLoaded VUndef)
  = [{| id := VStr "u"; type := StartApp; payload := VStr "1879" |}].
Proof.
  destruct (app_loaded_starts_app Scenario.world Scenario.state
              (Scenario.request AppLoaded VUndef) eq_refl) as (_ & _ & _ & Hstart).
  apply Hstart. right. right. right.
  exists "/tmp/previous.alva", (VStr "ENOENT"). split; reflexivity.
Defined.

(** X4 on a Save under [NODE_ENV] [development]: persisted once, and
    the path remembered. *)
Lemma save_persists_witness :
  effects (receive Scenario.world (Some Stored.save) Scenario.state)
  = [Send Stored.save;
     Persist "/tmp/demo.alva" (VObj (<["path" := VStr "/tmp/demo.alva"]> Scenario.project_file))]
  ∧ projectPath (final (receive Scenario.world (Some Stored.save) Scenario.state))
    = Some "/tmp/demo.alva".
Proof.
  destruct (save_persists Scenario.world Scenario.state Stored.save eq_refl) as [Hsaved _].
  destruct (Hsaved (VObj Scenario.project_file) (VStr "/tmp/demo.alva") eq_refl eq_refl)
    as (Heffects & _ & Hfinal).
  split; [exact Heffects|]. rewrite Hfinal. reflexivity.
Defined.

(** X5 on an App-loaded after that Save: the saved project is
    re-opened. *)
Lemma app_loaded_reopens_remembered_witness :
  replies Scenario.world
    (final (receive Scenario.world (Some Stored.save) Scenario.state))
    (Scenario.request AppLoaded VUndef)
  = [OpenFileResponse_for (Scenario.request AppLoaded VUndef) "/tmp/demo.alva"
       Scenario.project_file;
     {| id := VStr "u"; type := StartApp; payload := VStr "1879" |}].
Proof.
  destruct (app_loaded_reopens_remembered Scenario.world Scenario.world Scenario.state
              Stored.save (Scenario.request AppLoaded VUndef) eq_refl eq_refl)
    as (Hsave & _ & _).
  destruct (Hsave (VObj Scenario.project_file) (VStr "/tmp/demo.alva") Scenario.project_file
              eq_refl eq_refl eq_refl) as [Hreopened _].
  apply Hreopened; [reflexivity|discriminate|reflexivity].
Defined.

(** X6 on an export: the file is written and nothing else happens. *)
Lemma export_writes_file_witness :
  effects (receive Scenario.world (Some Stored.export) Scenario.state)
  = [Send Stored.export; WriteFile (VStr "/tmp/page.pdf") (VStr "%PDF")]
  ∧ final (receive Scenario.world (Some Stored.export) Scenario.state) = Scenario.state.
Proof.
  destruct (export_writes_file Scenario.world Scenario.state Stored.export
              (or_intror (or_introl eq_refl))) as (Hfinal & Hwritten & _).
  split; [|exact Hfinal].
  destruct (Hwritten _ eq_refl) as [Heffects _]. exact Heffects.
Defined.

(** X7 on a store that holds one record: the notification turns it
    into a list, the check throws. *)
Lemma store_not_a_list_witness :
  connections
    (final (receive Scenario.world
              (Some (Scenario.request ConnectedPatternLibraryNotification
                       Scenario.connection_b))
              Stored.single_record))
  = VArr [Scenario.connection_a; Scenario.connection_b]
  ∧ receive Scenario.world (Some (Scenario.request CheckLibraryRequest VUndef))
      Stored.single_record
    = {| effects := [Send (Scenario.request CheckLibraryRequest VUndef)];
         final := Stored.single_record;
         returned := None |}.
Proof.
  destruct (store_not_a_list Scenario.world Stored.single_record
              (Scenario.request ConnectedPatternLibraryNotification Scenario.connection_b)
              eq_refl eq_refl) as [_ Hnotified].
  destruct (store_not_a_list Scenario.world Stored.single_record
              (Scenario.request CheckLibraryRequest VUndef)
              eq_refl eq_refl) as [Hthrows _].
  split.
  - rewrite (Hnotified eq_refl). reflexivity.
  - apply Hthrows. right. reflexivity.
Defined.

(** X8 on a store with a [null]: the notification throws and repairs
    nothing. *)
Lemma null_record_blocks_store_witness :
  receive Scenario.world
    (Some (Scenario.request ConnectedPatternLibraryNotification Scenario.connection_b))
    Stored.with_null
  = {| effects := [Send (Scenario.request ConnectedPatternLibraryNotification
                           Scenario.connection_b)];
       final := Stored.with_null;
       returned := None |}.
Proof.
  apply (null_record_blocks_store Scenario.world Stored.with_null
           (Scenario.request ConnectedPatternLibraryNotification Scenario.connection_b)
           [Scenario.connection_a; VNull]).
  - reflexivity.
  - apply elem_of_cons. right. apply elem_of_cons. by left.
  - right. right. reflexivity.
Defined.

(** X9 on an update after a notification for a third folder of the
    library: the first folder stored is still the one analyzed. *)
Lemma update_after_notification_witness :
  replies Scenario.world
    (final (receive Scenario.world
              (Some (Scenario.request ConnectedPatternLibraryNotification
                       Stored.connection_c))
              Scenario.state))
    (Scenario.request UpdatePatternLibraryRequest VUndef)
  = [{| type := ConnectPatternLibraryResponse;
        id := VStr "1";
        payload := analysis_of (Analyzer_analyze Scenario.world "/lib/a" Scenario.buttons) |}].
Proof.
  rewrite (update_after_notification Scenario.world Scenario.world Scenario.state
             (Scenario.request ConnectedPatternLibraryNotification Stored.connection_c)
             (Scenario.request UpdatePatternLibraryRequest VUndef)
             [Scenario.connection_a; Scenario.connection_b]).
  - reflexivity.
  - reflexivity.
  - reflexivity.
  - reflexivity.
  - intros Hnull. apply elem_of_cons in Hnull as [?|Hnull]; [discriminate|].
    apply elem_of_cons in Hnull as [?|Hnull]; [discriminate|]. by apply elem_of_nil in Hnull.
  - reflexivity.
  - reflexivity.
Defined.

(** X10 on a check after a notification for a third folder: the two
    replies of before and one for the new folder. *)
Lemma check_after_notification_witness :
  replies Scenario.world
    (final (receive Scenario.world
              (Some (Scenario.request ConnectedPatternLibraryNotification
                       Stored.connection_c))
              Scenario.state))
    (Scenario.request CheckLibraryRequest (object [("id", VStr "L")]))
  ≡ₚ replies Scenario.world Scenario.state
       (Scenario.request CheckLibraryRequest (object [("id", VStr "L")]))
     ++ [{| id := VStr "1";
            type := CheckLibraryResponse;
            payload := VArr [object [("id", VStr "L"); ("path", VStr "/lib/c");
                                     ("connected", VBool false)]] |}].
Proof.
  refine (check_after_notification Scenario.world Scenario.world Scenario.state
            (Scenario.request ConnectedPatternLibraryNotification Stored.connection_c)
            (Scenario.request CheckLibraryRequest (object [("id", VStr "L")]))
            [Scenario.connection_a; Scenario.connection_b] (VStr "L")
            eq_refl eq_refl eq_refl scenario_connections _ eq_refl eq_refl eq_refl).
  apply NoDup_cons. split.
  - intros Hin. apply list_elem_of_singleton in Hin. discriminate.
  - apply NoDup_singleton.
Defined.

(** X11 on an Asset-read with two files chosen: the first is read and
    sent as a data URI. *)
Lemma asset_read_replies_witness :
  replies Stored.world_assets Scenario.state (Scenario.request AssetReadRequest VUndef)
  = [{| type := AssetReadResponse;
        id := VStr "1";
        payload := VStr "data:image/png;base64,iVA=" |}].
Proof.
  destruct (asset_read_replies Stored.world_assets Scenario.state
              (Scenario.request AssetReadRequest VUndef) "/tmp/logo.png" ["/tmp/other.png"]
              eq_refl eq_refl) as [Hread _]; [discriminate|].
  destruct (Hread _ eq_refl) as (mimeType & _ & [Hfound|[_ [Hnone|Hempty]]] & Hreplies).
  - injection Hfound as <-. exact Hreplies.
  - discriminate Hnone.
  - discriminate Hempty.
Defined.

(** X12 on a Create-script-bundle after a successful build. *)
Lemma script_bundle_replies_witness :
  replies Scenario.world Scenario.state (Scenario.request CreateScriptBundleRequest VUndef)
  = [{| type := CreateScriptBundleResponse;
        id := VStr "1";
        payload :=
          VArr [object [("name", VStr "renderer"); ("path", VStr "/renderer.js");
                        ("contents", VStr "")];
                object [("name", VStr "preview"); ("path", VStr "/preview.js");
                        ("contents", VStr "")]] |}].
Proof.
  destruct (script_bundle_replies Scenario.world Scenario.state
              (Scenario.request CreateScriptBundleRequest VUndef) eq_refl) as [Hbuilt _].
  apply Hbuilt; reflexivity.
Defined.

(** X13 on what a Save persists. *)
Lemma effects_by_tag_witness :
  Persist "/tmp/demo.alva" (VObj (<["path" := VStr "/tmp/demo.alva"]> Scenario.project_file))
    ∈ effects (receive Scenario.world (Some Stored.save) Scenario.state)
  ∧ (type Stored.save = CreateNewFileRequest ∨ type Stored.save = Save).
Proof.
  assert (Persist "/tmp/demo.alva"
            (VObj (<["path" := VStr "/tmp/demo.alva"]> Scenario.project_file))
          ∈ effects (receive Scenario.world (Some Stored.save) Scenario.state)) as Hin.
  { apply elem_of_cons. right. apply elem_of_cons. left. reflexivity. }
  split; [exact Hin|].
  exact (effects_by_tag Scenario.world Scenario.state Stored.save _ Hin).
Defined.

(** X14 on a Connect-pattern-library request with a folder chosen: one
    reply, and the state as before. *)
Lemma connect_pattern_library_replies_witness :
  replies Scenario.world Scenario.state
    (Scenario.request ConnectPatternLibraryRequest VUndef)
  = [{| type := ConnectPatternLibraryResponse;
        id := VStr "1";
        payload := analysis_of (Analyzer_analyze Scenario.world "/tmp/demo.alva"
                                  Scenario.buttons) |}]
  ∧ final (receive Scenario.world
             (Some (Scenario.request ConnectPatternLibraryRequest VUndef)) Scenario.state)
    = Scenario.state.
Proof.
  destruct (connect_pattern_library_replies Scenario.world Scenario.state
              (Scenario.request ConnectPatternLibraryRequest VUndef) eq_refl)
    as (Hfinal & Hchosen & _).
  split; [|exact Hfinal].
  apply (Hchosen "/tmp/demo.alva" []); [reflexivity|discriminate].
Defined.

End ExercisedFurther.

Section ExercisedViewer.
Import Viewer ViewerVocabulary ViewerItems ViewerItemsVocabulary.

(** X17 on the pattern folder of the scenario: its tree shows the
    nested folder and leaves the link out. *)
Lemma patterns_show_reachable_directories_witness :
  (shown [Build_PatternFolder "atoms" [Build_PatternFolder "button" []]]
     ["atoms"; "button"]
   ↔ reaches
       [("atoms", Directory [("button", Directory [("index.js", File)]);
                             ("README.md", File)]);
        ("linked", Link (Directory [("hidden", Directory [])]));
        ("package.json", File)]
       ["atoms"; "button"]).
Proof.
  apply (patterns_show_reachable_directories Styleguide.patterns);
    reflexivity.
Defined.

(** X20 on a value without patterns: its three primitives are the
    leaves. *)
Lemma plain_values_are_listed_witness :
  leaves <$> createListItemFromProperty Styleguide.is_zero Styleguide.characters
               (KString "props") Styleguide.plain
  = Some [JString "Hi"; JNumber 1%Z; JNumber 2%Z].
Proof.
  destruct (plain_values_are_listed
              Styleguide.is_zero Styleguide.characters (KString "props") Styleguide.plain
              eq_refl) as (item & Hitem & Hleaves).
  rewrite Hitem. simpl. rewrite Hleaves. reflexivity.
Defined.

(** X21 on the pattern of the scenario: it has a string as
    [patternSrc] and an array as [children]. *)
Lemma pattern_item_needs_patternSrc_witness :
  ∃ entries src items,
    Styleguide.button = JObject entries
    ∧ property entries "patternSrc" = Some (JString src)
    ∧ match property entries "children" with
      | None | Some (JArray _) => True
      | Some children => truthy Styleguide.is_zero children = false
      end
    ∧ Styleguide.button_item
      = Build_ListItem (KString "Root") (OfString (file_name src)) (Some items).
Proof.
  apply (pattern_item_needs_patternSrc
           Styleguide.is_zero Styleguide.characters (KString "Root") Styleguide.button).
  reflexivity.
Defined.

(** X22 on the item of that pattern: one item for the property, then
    one for the child. *)
Lemma pattern_item_lists_properties_then_children_witness :
  ∃ held fromProperties fromChildren,
    Styleguide.button_item
    = Build_ListItem (KString "Root") held (Some (fromProperties ++ fromChildren))
    ∧ length fromProperties = 1
    ∧ length fromChildren = 1.
Proof.
  destruct (pattern_item_lists_properties_then_children
              Styleguide.is_zero Styleguide.characters (KString "Root")
              [("_type", JString "pattern");
               ("patternSrc", JString "atoms/button/index");
               ("properties", JObject [("label", JString "OK")]);
               ("children", JArray [JString "text"])]
              [("label", JString "OK")] [JString "text"]
              Styleguide.button_item
              eq_refl eq_refl eq_refl)
    as (held & fromProperties & fromChildren & Hitem & Hlength1 & _ & Hlength2 & _).
  exists held, fromProperties, fromChildren. auto.
Defined.

End ExercisedViewer.
